(** * A shallow embedding of the game-metadata ETL, its scraper and its read API

    The development follows the three source files of the repository:
    - [etl_games.py]           (module [Etl]):     catalog fetch, dedup, upsert;
    - [scraper.py]             (module [Scraper]): configurable HTML scraper;
    - [api_games_sans_auth.py] (module [Api]):     read endpoints behind a bearer token.

    The modules [Spec] and [Samples] hold the notions in which the
    properties are stated and the inputs on which they are run; the
    properties follow, module by module.

    Python values are modelled by typed Rocq data: a [str] is a [string]
    (a sequence of characters; slicing and [len] count characters), an [int]
    is a [Z], [None]-able values are [option]s, a [dict] with a fixed set of
    keys is a record, and a [dict] used as an ordered map is an association
    list in insertion order.  Exceptions are values of type [Py.exn], and code
    that may raise returns a [Py.result]. *)

From Stdlib Require Import ZArith NArith String Ascii List Lia Bool.
From stdpp Require Import gmap strings list pretty.

Open Scope string_scope.
Open Scope Z_scope.

(** ** Python builtins used by the sources *)

Module Py.

(** Exceptions that the modelled code raises or receives from its
    libraries.  [RequestException k] stands for any failure raised by
    [requests.get] itself (connection error, timeout, ...), [k] telling
    occurrences apart; [HTTPError] is what [raise_for_status] raises;
    [HTTPException] is FastAPI's, a subclass of [Exception] like the
    others. *)
Inductive exn : Type :=
| RuntimeError (msg : string)
| AssertionError
| ValueError (msg : string)
| AttributeError (msg : string)
| KeyError (key : string)
| TypeError (msg : string)
| OSError (msg : string)
| SelectorError (msg : string)
| RequestException (k : nat)
| HTTPError (status : Z)
| HTTPException (status : Z) (detail : string)
| JWTError
| DBError (msg : string).

Inductive result (A : Type) : Type :=
| Ok (a : A)
| Raise (e : exn).
Arguments Ok {A} a.
Arguments Raise {A} e.

Definition rbind {A B} (r : result A) (k : A -> result B) : result B :=
  match r with
  | Ok a => k a
  | Raise e => Raise e
  end.

(** [try: body  except Exception: handler] *)
Definition try_except {A} (body : result A) (handler : exn -> result A) : result A :=
  match body with
  | Ok a => Ok a
  | Raise e => handler e
  end.

(** Truthiness of a [str] and of an optional [str] ([None] and [""] are
    falsy). *)
Definition str_truthy (s : string) : bool :=
  match s with
  | EmptyString => false
  | String _ _ => true
  end.

Definition opt_truthy (o : option string) : bool :=
  match o with
  | None => false
  | Some s => str_truthy s
  end.

(** [s[:n]] *)
Fixpoint slice_to (n : nat) (s : string) : string :=
  match n, s with
  | O, _ => EmptyString
  | S _, EmptyString => EmptyString
  | S n', String c s' => String c (slice_to n' s')
  end.

(** [s.replace(a, b)] for one-character [a] and [b]. *)
Fixpoint replace_char (a b : ascii) (s : string) : string :=
  match s with
  | EmptyString => EmptyString
  | String c s' =>
      String (if Ascii.eqb c a then b else c) (replace_char a b s')
  end.

(** [s.split(sep)] for a one-character separator: never empty. *)
Fixpoint split_char (sep : ascii) (s : string) : list string :=
  match s with
  | EmptyString => [EmptyString]
  | String c s' =>
      if Ascii.eqb c sep then EmptyString :: split_char sep s'
      else match split_char sep s' with
           | [] => [String c EmptyString]
           | w :: ws => String c w :: ws
           end
  end.

(** [l[i]] on a list, raising when out of range. *)
Definition index {A} (l : list A) (i : nat) : result A :=
  match nth_error l i with
  | Some x => Ok x
  | None => Raise (ValueError "list index out of range")
  end.

(** Whitespace removed by [str.strip()], within the ASCII range:
    TAB, LF, VT, FF, CR, FS, GS, RS, US and space. *)
Definition is_space (c : ascii) : bool :=
  let n := nat_of_ascii c in
  ((9 <=? n) && (n <=? 13))%nat || ((28 <=? n) && (n <=? 32))%nat.

Fixpoint lstrip (s : string) : string :=
  match s with
  | EmptyString => EmptyString
  | String c s' => if is_space c then lstrip s' else s
  end.

(** Drops trailing whitespace: a character is kept when it is not a space
    or when something is kept after it. *)
Fixpoint rstrip (s : string) : string :=
  match s with
  | EmptyString => EmptyString
  | String c s' =>
      match rstrip s' with
      | EmptyString => if is_space c then EmptyString else String c EmptyString
      | r => String c r
      end
  end.

Definition strip (s : string) : string := rstrip (lstrip s).

(** [str.lower()] on ASCII letters; other characters are unchanged. *)
Definition lower_char (c : ascii) : ascii :=
  let n := nat_of_ascii c in
  if ((65 <=? n) && (n <=? 90))%nat then ascii_of_nat (n + 32) else c.

Fixpoint lower (s : string) : string :=
  match s with
  | EmptyString => EmptyString
  | String c s' => String (lower_char c) (lower s')
  end.

(** [sep.join(parts)] *)
Fixpoint join (sep : string) (parts : list string) : string :=
  match parts with
  | [] => EmptyString
  | [p] => p
  | p :: ps => p ++ sep ++ join sep ps
  end.

(** [s.startswith(p)] *)
Fixpoint startswith (p s : string) : bool :=
  match p, s with
  | EmptyString, _ => true
  | String _ _, EmptyString => false
  | String a p', String b s' => Ascii.eqb a b && startswith p' s'
  end.

(** [x in l] for a list of strings. *)
Definition str_in (x : string) (l : list string) : bool :=
  existsb (String.eqb x) l.

(** *** Ordered dictionaries

    A Python [dict] keeps its keys in insertion order; assigning to a key
    that is already present replaces the value and leaves the key where it
    is. *)
Section Dict.
Context {V : Type}.

Definition dict : Type := list (Z * V).

Fixpoint dict_set (k : Z) (v : V) (d : dict) : dict :=
  match d with
  | [] => [(k, v)]
  | (k', v') :: d' =>
      if Z.eqb k' k then (k', v) :: d' else (k', v') :: dict_set k v d'
  end.

Fixpoint dict_get (k : Z) (d : dict) : option V :=
  match d with
  | [] => None
  | (k', v') :: d' => if Z.eqb k' k then Some v' else dict_get k d'
  end.

Definition dict_keys (d : dict) : list Z := map fst d.
Definition dict_values (d : dict) : list V := map snd d.
End Dict.
Arguments dict V : clear implicits.

End Py.

(** ** The canonical Game record

    Both producers build a [dict] with the same eight keys. *)

(** A Python [float] (or a JSON number) by the decimal literal it was read
    from: [FDec neg m e] denotes [(-1)^neg * m * 10^e], the real number that
    Python rounds to the nearest binary64 value. *)
Inductive pyfloat : Type :=
| FNan
| FInf (neg : bool)
| FDec (neg : bool) (m : N) (e : Z).

Record row : Type := mkRow {
  game_id : option Z;
  title : option string;
  platforms : option string;
  genres : option string;
  release_date : option string;
  rating : option pyfloat;
  source : string;
  raw_json : option string
}.

(** ** Number parsing: [int(s)] and [float(s)] on ASCII text *)

Module Num.
Import Py.

Definition digit_of (c : ascii) : option N :=
  let n := N_of_ascii c in
  if ((48 <=? n) && (n <=? 57))%N then Some (n - 48)%N else None.

Definition is_digit (c : ascii) : bool :=
  match digit_of c with Some _ => true | None => false end.

Definition next_is_digit (s : string) : bool :=
  match s with
  | String c _ => is_digit c
  | EmptyString => false
  end.

(** Reads a digit part [digit (["_"] digit)*]: the value accumulated on
    [acc], the number of digits read, and the unread rest.  An underscore
    is only consumed between two digits. *)
Fixpoint scan_digits (prev : bool) (s : string) (acc : N) (cnt : nat)
  : N * nat * string :=
  match s with
  | EmptyString => (acc, cnt, s)
  | String c s' =>
      match digit_of c with
      | Some d => scan_digits true s' (10 * acc + d)%N (S cnt)
      | None =>
          if Ascii.eqb c "_" && prev && next_is_digit s'
          then scan_digits false s' acc cnt
          else (acc, cnt, s)
      end
  end.

(** The whitespace that [int] and [float] skip around a number, within the
    ASCII range: TAB, LF, VT, FF, CR and space (the separators FS to US,
    which [str.strip] removes, are not accepted here). *)
Definition is_blank (c : ascii) : bool :=
  let n := nat_of_ascii c in
  ((9 <=? n) && (n <=? 13))%nat || (n =? 32)%nat.

Fixpoint skip_blanks (s : string) : string :=
  match s with
  | EmptyString => EmptyString
  | String c s' => if is_blank c then skip_blanks s' else s
  end.

Fixpoint drop_trailing_blanks (s : string) : string :=
  match s with
  | EmptyString => EmptyString
  | String c s' =>
      match drop_trailing_blanks s' with
      | EmptyString => if is_blank c then EmptyString else String c EmptyString
      | r => String c r
      end
  end.

Definition trim (s : string) : string := drop_trailing_blanks (skip_blanks s).

(** An optional sign: whether it is negative, and the rest. *)
Definition scan_sign (s : string) : bool * string :=
  match s with
  | String "-" s' => (true, s')
  | String "+" s' => (false, s')
  | _ => (false, s)
  end.

(** [int(s)], base 10: surrounding whitespace, an optional sign, digits. *)
Definition py_int (s : string) : result Z :=
  let (neg, body) := scan_sign (trim s) in
  match scan_digits false body 0%N O with
  | (v, S _, EmptyString) => Ok (if neg then - Z.of_N v else Z.of_N v)
  | _ => Raise (ValueError "invalid literal for int() with base 10")
  end.

(** An optional exponent [("e"|"E") [sign] digitpart]; [None] when the
    text is not an exponent. *)
Definition scan_exponent (s : string) : option (Z * string) :=
  match s with
  | String c s' =>
      if Ascii.eqb c "e" || Ascii.eqb c "E" then
        let (neg, body) := scan_sign s' in
        match scan_digits false body 0%N O with
        | (v, S _, rest) => Some (if neg then - Z.of_N v else Z.of_N v, rest)
        | _ => None
        end
      else None
  | EmptyString => None
  end.

(** The unsigned decimal forms [digits], [digits.], [digits.digits] and
    [.digits], each with an optional exponent. *)
Definition scan_decimal (neg : bool) (s : string) : option pyfloat :=
  let '(ip, ni, r1) := scan_digits false s 0%N O in
  let '(m, nf, r2) :=
    match r1 with
    | String "." r => scan_digits false r ip O
    | _ => (ip, O, r1)
    end in
  match (ni + nf)%nat with
  | O => None
  | S _ =>
      match r2 with
      | EmptyString => Some (FDec neg m (- Z.of_nat nf))
      | _ =>
          match scan_exponent r2 with
          | Some (ex, EmptyString) => Some (FDec neg m (ex - Z.of_nat nf))
          | _ => None
          end
      end
  end.

(** [float(s)] *)
Definition py_float (s : string) : result pyfloat :=
  let (neg, body) := scan_sign (trim s) in
  let word := lower body in
  if String.eqb word "inf" || String.eqb word "infinity" then Ok (FInf neg)
  else if String.eqb word "nan" then Ok FNan
  else match scan_decimal neg body with
       | Some f => Ok f
       | None => Raise (ValueError "could not convert string to float")
       end.

End Num.

(** ** SHA-256 ([hashlib.sha256]) on byte strings

    Words are 32-bit, kept in [Z] and reduced modulo [2^32] after each
    addition. *)

Module Sha256.

Definition w32 (x : Z) : Z := x mod 2 ^ 32.
Definition add32 (x y : Z) : Z := w32 (x + y).
Definition rotr (n x : Z) : Z :=
  Z.lor (Z.shiftr x n) (w32 (Z.shiftl x (32 - n))).
Definition not32 (x : Z) : Z := Z.lxor x (2 ^ 32 - 1).

Definition Ch (x y z : Z) : Z := Z.lxor (Z.land x y) (Z.land (not32 x) z).
Definition Maj (x y z : Z) : Z :=
  Z.lxor (Z.lxor (Z.land x y) (Z.land x z)) (Z.land y z).
Definition Sigma0 (x : Z) : Z := Z.lxor (Z.lxor (rotr 2 x) (rotr 13 x)) (rotr 22 x).
Definition Sigma1 (x : Z) : Z := Z.lxor (Z.lxor (rotr 6 x) (rotr 11 x)) (rotr 25 x).
Definition sigma0 (x : Z) : Z := Z.lxor (Z.lxor (rotr 7 x) (rotr 18 x)) (Z.shiftr x 3).
Definition sigma1 (x : Z) : Z := Z.lxor (Z.lxor (rotr 17 x) (rotr 19 x)) (Z.shiftr x 10).

(** The round constants are the first 32 bits of the fractional parts of
    the cube roots of the first 64 primes, and the initial state those of the
    square roots of the first 8. *)
Definition primes : list Z :=
  [ 2; 3; 5; 7; 11; 13; 17; 19; 23; 29; 31; 37; 41; 43; 47; 53; 59; 61; 67;
    71; 73; 79; 83; 89; 97; 101; 103; 107; 109; 113; 127; 131; 137; 139; 149;
    151; 157; 163; 167; 173; 179; 181; 191; 193; 197; 199; 211; 223; 227; 229;
    233; 239; 241; 251; 257; 263; 269; 271; 277; 281; 283; 293; 307; 311 ].

(** The integer cube root of [n < 2^(3 * bits)], one bit at a time. *)
Fixpoint cube_root (bits : nat) (n r : Z) : Z :=
  match bits with
  | O => r
  | S b =>
      let r' := r + 2 ^ Z.of_nat b in
      cube_root b n (if r' * r' * r' <=? n then r' else r)
  end.

Definition K : list Z :=
  Eval vm_compute in map (fun p => w32 (cube_root 36 (p * 2 ^ 96) 0)) primes.

Definition H0 : list Z :=
  Eval vm_compute in map (fun p => w32 (Z.sqrt (p * 2 ^ 64))) (firstn 8 primes).

Definition bytes_of_string (s : string) : list Z :=
  map (fun c => Z.of_N (N_of_ascii c)) (list_ascii_of_string s).

(** Big-endian bytes of [x], [n] of them. *)
Fixpoint be_bytes (n : nat) (x : Z) : list Z :=
  match n with
  | O => []
  | S n' => be_bytes n' (Z.shiftr x 8) ++ [x mod 256]
  end.

Definition be_value (bs : list Z) : Z :=
  fold_left (fun acc b => acc * 256 + b) bs 0.

(** Padding: a [0x80] byte, zero bytes up to 56 modulo 64, then the bit
    length on 8 bytes. *)
Definition pad (msg : list Z) : list Z :=
  let len := Z.of_nat (length msg) in
  let zeros := Z.to_nat ((55 - len) mod 64) in
  msg ++ [128] ++ repeat 0 zeros ++ be_bytes 8 (8 * len).

Fixpoint chunks (fuel n : nat) {A} (l : list A) : list (list A) :=
  match fuel with
  | O => []
  | S fuel' =>
      match l with
      | [] => []
      | _ => firstn n l :: chunks fuel' n (skipn n l)
      end
  end.

Definition words_of_block (block : list Z) : list Z :=
  map be_value (chunks 16 4 block).

(** The message schedule, most recent word first while it is built. *)
Fixpoint extend (n : nat) (rev_w : list Z) : list Z :=
  match n with
  | O => rev_w
  | S n' =>
      let w2 := nth 1 rev_w 0 in
      let w7 := nth 6 rev_w 0 in
      let w15 := nth 14 rev_w 0 in
      let w16 := nth 15 rev_w 0 in
      extend n' (add32 (add32 (sigma1 w2) w7) (add32 (sigma0 w15) w16) :: rev_w)
  end.

Definition schedule (block : list Z) : list Z :=
  rev (extend 48 (rev (words_of_block block))).

Definition round (st : list Z) (kw : Z * Z) : list Z :=
  match st with
  | [a; b; c; d; e; f; g; h] =>
      let t1 := add32 (add32 (add32 h (Sigma1 e)) (add32 (Ch e f g) (fst kw))) (snd kw) in
      let t2 := add32 (Sigma0 a) (Maj a b c) in
      [add32 t1 t2; a; b; c; add32 d t1; e; f; g]
  | _ => st
  end.

Definition compress (h : list Z) (block : list Z) : list Z :=
  let st := fold_left round (combine K (schedule block)) h in
  map (fun p => add32 (fst p) (snd p)) (combine h st).

Definition digest (s : string) : list Z :=
  let padded := pad (bytes_of_string s) in
  let blocks := chunks (length padded) 64 padded in
  flat_map (be_bytes 4) (fold_left compress blocks H0).

Definition hex_char (d : Z) : ascii :=
  ascii_of_N (Z.to_N (if d <? 10 then 48 + d else 87 + d)).

(** [hashlib.sha256(data).hexdigest()] *)
Definition hexdigest (s : string) : string :=
  string_of_list_ascii
    (flat_map (fun b => [hex_char (b / 16); hex_char (b mod 16)]) (digest s)).

Definition hex_digit (c : ascii) : Z :=
  let n := Z.of_N (N_of_ascii c) in
  if (48 <=? n) && (n <=? 57) then n - 48
  else if (97 <=? n) && (n <=? 102) then n - 87
  else if (65 <=? n) && (n <=? 70) then n - 55
  else 0.

(** [int(h, 16)] on a string of hexadecimal digits. *)
Definition int_hex (h : string) : Z :=
  fold_left (fun acc c => acc * 16 + hex_digit c) (list_ascii_of_string h) 0.

End Sha256.

(** ** The outside world: HTTP, the clock and the ETL's database *)

(** [Absent]: the key is missing; [Null]: it is present with value [null]. *)
Inductive json_field (A : Type) : Type :=
| Absent
| Null
| Present (a : A).
Arguments Absent {A}.
Arguments Null {A}.
Arguments Present {A} a.

(** One entry of the catalog's ["results"] array.  [e_platforms] holds, for
    each element [p] of ["platforms"], the name [p["platform"]["name"]] when
    [p.get("platform")] is truthy; [e_dump] is [json.dumps(g)]. *)
Record rawg_entry : Type := mkEntry {
  e_id : option Z;
  e_name : option string;
  e_released : option string;
  e_platforms : json_field (list (option string));
  e_genres : json_field (list string);
  e_rating : option pyfloat;
  e_dump : string
}.

(** An HTTP response as the sources read it: [retry_after] is
    [headers.get("Retry-After")], [json] is the decoded body ([None] when the
    body is not JSON) with its ["results"] key ([None] when missing). *)
Record response : Type := mkResponse {
  status_code : Z;
  retry_after : option string;
  text : string;
  json : option (option (list rawg_entry))
}.

Inductive http_outcome : Type :=
| Fails (k : nat)
| Responds (r : response).

Inductive event : Type :=
| EvGet (url : string)
| EvSleep (seconds : Z)
| EvBegin
| EvCreateTable (table : string)
| EvUpsert (table : string) (params : list row)
| EvCommit
| EvRollback.

(** The state threaded through the ETL: [net n url] is what the [n]-th
    request of the run receives when it asks for [url]; [trace] lists the
    requests, sleeps and database events so far, oldest first; [tables] is
    the content of the store, each table keyed by [game_id]. *)
Record world : Type := mkWorld {
  net : nat -> string -> http_outcome;
  requests : nat;
  trace : list event;
  db_up : bool;
  tables : gmap string (gmap Z row)
}.

Module Net.
Import Py.

Definition M (A : Type) : Type := world -> result A * world.

Definition ret {A} (a : A) : M A := fun w => (Ok a, w).
Definition raise {A} (e : exn) : M A := fun w => (Raise e, w).
Definition bind {A B} (m : M A) (k : A -> M B) : M B :=
  fun w =>
    match m w with
    | (Ok a, w') => k a w'
    | (Raise e, w') => (Raise e, w')
    end.
Definition lift {A} (r : result A) : M A := fun w => (r, w).

(** [try: body  except Exception as e: handler e] *)
Definition try_catch {A} (body : M A) (handler : exn -> M A) : M A :=
  fun w =>
    match body w with
    | (Ok a, w') => (Ok a, w')
    | (Raise e, w') => handler e w'
    end.

Declare Scope net_scope.
Delimit Scope net_scope with net.
Notation "x <- m ;; k" := (bind m (fun x => k))
  (at level 100, m at next level, right associativity) : net_scope.
Notation "m ;;; k" := (bind m (fun _ => k))
  (at level 100, right associativity) : net_scope.

Definition log (ev : event) : M unit :=
  fun w => (Ok tt, mkWorld (net w) (requests w) (trace w ++ [ev]) (db_up w) (tables w)).

(** [requests.get(url, ...)] *)
Definition requests_get (url : string) : M response :=
  fun w =>
    let w' := mkWorld (net w) (S (requests w)) (trace w ++ [EvGet url])
                      (db_up w) (tables w) in
    match net w (requests w) url with
    | Fails k => (Raise (RequestException k), w')
    | Responds r => (Ok r, w')
    end.

(** [resp.raise_for_status()]: an error for 4xx and 5xx. *)
Definition raise_for_status (r : response) : result unit :=
  if (400 <=? status_code r) && (status_code r <? 600)
  then Raise (HTTPError (status_code r))
  else Ok tt.

(** [time.sleep(secs)]: a negative length is an error. *)
Definition sleep (secs : Z) : M unit :=
  if secs <? 0 then raise (ValueError "sleep length must be non-negative")
  else log (EvSleep secs).

(** [range(lo, hi)] *)
Definition range (lo hi : Z) : list Z :=
  map (fun i => lo + Z.of_nat i) (seq 0 (Z.to_nat (hi - lo))).

(** [l[:n]] for a list, with Python's meaning of a negative bound. *)
Definition list_slice_to {A} (n : Z) (l : list A) : list A :=
  if n <? 0 then firstn (length l - Z.to_nat (- n)) l
  else firstn (Z.to_nat n) l.

End Net.

(** ** [scraper.py] *)

Module Scraper.
Import Py Net.
Local Open Scope net_scope.

Definition DEFAULT_TIMEOUT : Z := 20.
Definition DEFAULT_RETRIES : Z := 3.
Definition PAUSE_BETWEEN_REQUESTS : Z := 1.

Record SourceCfg : Type := mkSourceCfg {
  name : string;
  base_url : string;
  list_urls : list string;
  item_selector : string;
  fields : gmap string string;
  constant_fields : gmap string string
}.

(** A node found by a CSS selector: [outer] is [str(node)], [get_text] is
    [node.get_text(strip=True)], [href] is [node["href"]] when the node has
    that attribute. *)
Record element : Type := mkElement {
  outer : string;
  get_text : string;
  href : option string
}.

(** A source entry of the configuration file, before validation. *)
Record raw_source : Type := mkRawSource {
  rs_name : option string;
  rs_base_url : option string;
  rs_list_urls : option (list string);
  rs_item_selector : option string;
  rs_fields : option (gmap string string);
  rs_constant_fields : option (gmap string string)
}.

(** [str.splitlines()] on the ASCII line boundaries; [after_cr] tells that
    the previous character was a carriage return, whose following line feed
    belongs to the same boundary. *)
Definition is_linebreak (c : ascii) : bool :=
  let n := nat_of_ascii c in
  ((10 <=? n) && (n <=? 13))%nat || ((28 <=? n) && (n <=? 30))%nat.

Fixpoint splitlines_acc (after_cr : bool) (cur : option string) (s : string)
  : list string :=
  match s with
  | EmptyString => match cur with Some l => [l] | None => [] end
  | String c s' =>
      if Ascii.eqb c "010" && after_cr then splitlines_acc false None s'
      else if is_linebreak c
      then default EmptyString cur :: splitlines_acc (Ascii.eqb c "013") None s'
      else splitlines_acc false (Some (default EmptyString cur ++ String c EmptyString)) s'
  end.

Definition splitlines (s : string) : list string := splitlines_acc false None s.

Section Libraries.
(** Library functions the module calls and that are not part of the
    repository: [select html sel] is [BeautifulSoup(html,
    "html.parser").select(sel)], which raises on a malformed selector;
    [urlparse url] gives the scheme and the network location of [url];
    [read_json path] is [json.load(open(path))] followed by
    [.get("sources", [])]. *)
Variable select : string -> string -> result (list element).
Variable urlparse : string -> string * string.
Variable read_json : string -> result (list raw_source).

Definition select_one (html sel : string) : result (option element) :=
  rbind (select html sel) (fun l => Ok (head l)).

Definition _allowed_by_robots (base : string) : M bool :=
  try_catch
    (let (scheme, netloc) := urlparse base in
     let robots_url := scheme ++ "://" ++ netloc ++ "/robots.txt" in
     r <- requests_get robots_url ;;
     if negb (status_code r =? 200) then ret true
     else
       disallow_lines <-
         lift ((fix each (ls : list string) : result (list string) :=
                  match ls with
                  | [] => Ok []
                  | line :: ls' =>
                      if startswith "disallow:" (lower line)
                      then rbind (index (split_char ":" line) 1) (fun v =>
                           rbind (each ls') (fun vs => Ok (strip v :: vs)))
                      else each ls'
                  end) (splitlines (text r))) ;;
       ret (negb (str_in "/" disallow_lines)))
    (fun _ => ret true).

(** The [try] block of [_get]. *)
Definition get_attempt (url : string) : M response :=
  resp <- requests_get url ;;
  lift (raise_for_status resp) ;;;
  ret resp.

Fixpoint get_loop (url : string) (attempts : list Z) (last_exc : option exn)
  : M (option response) :=
  match attempts with
  | [] =>
      match last_exc with
      | Some e => raise e
      | None => ret None
      end
  | attempt :: rest =>
      fun w =>
        match get_attempt url w with
        | (Ok resp, w') => (Ok (Some resp), w')
        | (Raise e, w') => (sleep attempt ;;; get_loop url rest (Some e)) w'
        end
  end.

Definition _get (url : string) (retries : Z) (timeout : Z) : M (option response) :=
  get_loop url (range 1 (retries + 1)) None.

Definition _text_or_none (node : option element) : option string :=
  match node with
  | None => None
  | Some el => if str_truthy (get_text el) then Some (get_text el) else None
  end.

Definition _select_text (soup selector : string) : result (option string) :=
  if negb (str_truthy selector) then Ok None
  else rbind (select_one soup selector) (fun el => Ok (_text_or_none el)).

Definition or_empty (p : option string) : string :=
  match p with
  | Some s => if str_truthy s then s else EmptyString
  | None => EmptyString
  end.

Definition _hash_id (parts : list (option string)) : Z :=
  let data := join "|" (map or_empty parts) in
  let h := slice_to 16 (Sha256.hexdigest data) in
  Sha256.int_hex h mod (2 ^ 63 - 1).

(** Lines 110-116 of [parse_list_page]: the rating text to a float. *)
Definition rating_value (rating : option string) : result (option pyfloat) :=
  if opt_truthy rating then
    try_except
      (rbind (index (split_char "/" (replace_char "," "." (default EmptyString rating))) 0)
         (fun s => rbind (Num.py_float s) (fun f => Ok (Some f))))
      (fun _ => Ok None)
  else Ok None.

(** [_select_text(s, cfg.fields.get(key, "")) if key in cfg.fields else None] *)
Definition field_text (cfg : SourceCfg) (s key : string) : result (option string) :=
  match fields cfg !! key with
  | Some sel => _select_text s sel
  | None => Ok None
  end.

Definition with_constant (cfg : SourceCfg) (key : string) (v : option string)
  : option string :=
  if negb (opt_truthy v) then
    match constant_fields cfg !! key with
    | Some c => Some c
    | None => v
    end
  else v.

(** Lines 99-104 of [parse_list_page]: the [href] of the link of an
    item, used for the id only. *)
Definition link_href (cfg : SourceCfg) (s : string) : result (option string) :=
  match fields cfg !! "link" with
  | Some link_sel =>
      if str_truthy link_sel then
        rbind (select_one s link_sel) (fun link_el =>
          Ok (match link_el with
              | Some el => href el
              | None => None
              end))
      else Ok None
  | None => Ok None
  end.

(** The body of the loop of [parse_list_page], for one item. *)
Definition parse_item (cfg : SourceCfg) (item : element) : result row :=
  let s := outer item in
  rbind (field_text cfg s "title") (fun title =>
  rbind (link_href cfg s) (fun href =>
  rbind (field_text cfg s "platforms") (fun platforms =>
  rbind (field_text cfg s "genres") (fun genres =>
  rbind (field_text cfg s "release_date") (fun release_date =>
  rbind (field_text cfg s "rating") (fun rating =>
  rbind (rating_value rating) (fun rating_val =>
  let platforms := with_constant cfg "platforms" platforms in
  let genres := with_constant cfg "genres" genres in
  let gid := _hash_id [Some (name cfg); title; href; release_date] in
  Ok (mkRow (Some gid) title platforms genres release_date rating_val
            ("scrape:" ++ name cfg) None)))))))).

Fixpoint parse_items (cfg : SourceCfg) (items : list element) : result (list row) :=
  match items with
  | [] => Ok []
  | item :: rest =>
      rbind (parse_item cfg item) (fun r =>
      rbind (parse_items cfg rest) (fun rs => Ok (r :: rs)))
  end.

Definition parse_list_page (html : string) (cfg : SourceCfg) : result (list row) :=
  rbind (select html (item_selector cfg)) (parse_items cfg).

(** [resp.text] on the optional response that [_get] returns. *)
Definition text_of (resp : option response) : result string :=
  match resp with
  | Some r => Ok (text r)
  | None => Raise (AttributeError "'NoneType' object has no attribute 'text'")
  end.

Fixpoint scrape_loop (cfg : SourceCfg) (limit : Z) (urls : list string)
  (out : list row) : M (list row) :=
  match urls with
  | [] => ret out
  | url :: rest =>
      resp <- _get url DEFAULT_RETRIES DEFAULT_TIMEOUT ;;
      sleep PAUSE_BETWEEN_REQUESTS ;;;
      rows <- lift (rbind (text_of resp) (fun html => parse_list_page html cfg)) ;;
      let out := (out ++ rows)%list in
      if Z.of_nat (length out) >=? limit then ret out
      else scrape_loop cfg limit rest out
  end.

Definition scrape_source (cfg : SourceCfg) (limit : Z) : M (list row) :=
  allowed <- _allowed_by_robots (base_url cfg) ;;
  if negb allowed then ret []
  else
    out <- scrape_loop cfg limit (list_urls cfg) [] ;;
    ret (list_slice_to limit out).

Definition required (key : string) (v : option string) : result string :=
  match v with
  | Some s => Ok s
  | None => Raise (KeyError key)
  end.

Fixpoint load_each (data : list raw_source) : result (list SourceCfg) :=
  match data with
  | [] => Ok []
  | s :: rest =>
      rbind (required "name" (rs_name s)) (fun n =>
      rbind (required "base_url" (rs_base_url s)) (fun b =>
      rbind (match rs_list_urls s with
             | Some l => Ok l
             | None => Raise (KeyError "list_urls")
             end) (fun l =>
      rbind (required "item_selector" (rs_item_selector s)) (fun i =>
      rbind (load_each rest) (fun cfgs =>
      Ok (mkSourceCfg n b l i (default ∅ (rs_fields s))
                      (default ∅ (rs_constant_fields s)) :: cfgs))))))
  end.

Definition load_sources (path : string) : result (list SourceCfg) :=
  rbind (read_json path) load_each.

(** The loop of [scrape_all_sources], [rows] being the list it extends. *)
Fixpoint scrape_each (cfgs : list SourceCfg) (limit_per_source : Z)
  (rows : list row) : M (list row) :=
  match cfgs with
  | [] => ret rows
  | cfg :: rest =>
      fun w =>
        match scrape_source cfg limit_per_source w with
        | (Ok part, w') => scrape_each rest limit_per_source (rows ++ part)%list w'
        | (Raise _, w') => scrape_each rest limit_per_source rows w'
        end
  end.

Definition scrape_all_sources (config_path : string) (limit_per_source : Z)
  : M (list row) :=
  cfgs <- lift (load_sources config_path) ;;
  scrape_each cfgs limit_per_source [].

End Libraries.
End Scraper.

(** ** [etl_games.py] *)

Module Etl.
Import Py Net.
Local Open Scope net_scope.

(** The entries of [load_config] that the run reads. *)
Record config : Type := mkConfig {
  RAWG_API_KEY : string;
  DB_TABLE : string;
  HTTP_TIMEOUT : string;
  HTTP_RETRIES : string
}.

(** The parsed command line. *)
Record arguments : Type := mkArguments {
  limit : Z;
  no_api : bool
}.

(** The environment variables read by [maybe_scrape_and_merge]. *)
Record environ : Type := mkEnviron {
  SCRAPE_ENABLED : option string;
  SCRAPE_CONFIG : option string
}.

(** *** Database helpers *)

Definition set_tables (t : gmap string (gmap Z row)) : M unit :=
  fun w => (Ok tt, mkWorld (net w) (requests w) (trace w) (db_up w) t).

(** [with engine.begin() as conn: body]: connects and begins, commits when
    [body] returns, rolls back and raises again when it raises. *)
Definition transaction {A} (body : M A) : M A :=
  fun w =>
    if negb (db_up w) then (Raise (DBError "cannot connect"), w)
    else
      match (log EvBegin ;;; body) w with
      | (Ok a, w') => (log EvCommit ;;; ret a) w'
      | (Raise e, w') =>
          (set_tables (tables w) ;;; log EvRollback ;;; raise e) w'
      end.

(** [CREATE TABLE IF NOT EXISTS] *)
Definition execute_ddl (table : string) : M unit :=
  log (EvCreateTable table) ;;;
  fun w =>
    match tables w !! table with
    | Some _ => (Ok tt, w)
    | None => set_tables (<[table := ∅]> (tables w)) w
    end.

(** One row of [INSERT ... ON DUPLICATE KEY UPDATE]: [game_id] and [title]
    are [NOT NULL]; an existing row with the same key has all its listed
    columns overwritten. *)
Definition upsert_one (t : gmap Z row) (r : row) : result (gmap Z row) :=
  match game_id r, title r with
  | None, _ => Raise (DBError "Column 'game_id' cannot be null")
  | _, None => Raise (DBError "Column 'title' cannot be null")
  | Some k, Some _ => Ok (<[k := r]> t)
  end.

Fixpoint upsert_many (t : gmap Z row) (rows : list row) : result (gmap Z row) :=
  match rows with
  | [] => Ok t
  | r :: rest => rbind (upsert_one t r) (fun t' => upsert_many t' rest)
  end.

(** [conn.execute(stmt, rows)] for the upsert statement. *)
Definition execute_upsert (table : string) (rows : list row) : M unit :=
  log (EvUpsert table rows) ;;;
  fun w =>
    match tables w !! table with
    | None => (Raise (DBError "table does not exist"), w)
    | Some t =>
        match upsert_many t rows with
        | Ok t' => set_tables (<[table := t']> (tables w)) w
        | Raise e => (Raise e, w)
        end
    end.

Definition ensure_table (table : string) : M unit :=
  transaction (execute_ddl table).

Definition upsert_rows (table : string) (rows : list row) : M Z :=
  match rows with
  | [] => ret 0
  | _ =>
      transaction (execute_upsert table rows) ;;;
      ret (Z.of_nat (length rows))
  end.

(** *** RAWG fetcher *)

Definition RAWG_URL : string := "https://api.rawg.io/api/games".

(** The [page_size] parameter of the request. *)
Definition page_size (limit : Z) : Z := Z.min (Z.max limit 1) 100.

(** [x[:255] if x else None] *)
Definition clip (x : option string) : option string :=
  match x with
  | Some s => if str_truthy s then Some (slice_to 255 s) else None
  | None => None
  end.

(** [g.get(key, [])] followed by an iteration. *)
Definition iterate {A} (f : json_field (list A)) : result (list A) :=
  match f with
  | Absent => Ok []
  | Null => Raise (TypeError "'NoneType' object is not iterable")
  | Present l => Ok l
  end.

(** The body of the normalization loop, for one entry [g]. *)
Definition normalize (g : rawg_entry) : result row :=
  let game_id := e_id g in
  let title := e_name g in
  let release_date := if opt_truthy (e_released g) then e_released g else None in
  rbind (iterate (e_platforms g)) (fun ps =>
  let platforms := join ", " (omap (fun p => p) ps) in
  rbind (iterate (e_genres g)) (fun gs =>
  let genres := join ", " gs in
  Ok (mkRow game_id (clip title) (clip (Some platforms)) (clip (Some genres))
            release_date (e_rating g) "rawg" (Some (e_dump g))))).

Fixpoint normalize_all (results : list rawg_entry) : result (list row) :=
  match results with
  | [] => Ok []
  | g :: rest =>
      rbind (normalize g) (fun r =>
      rbind (normalize_all rest) (fun rs => Ok (r :: rs)))
  end.

(** How one pass through the [try] block ends when it does not raise. *)
Inductive step : Type :=
| Continue
| Return (normalized : list row).

(** The [try] block of [rawg_fetch_latest]. *)
Definition fetch_attempt (limit : Z) : M step :=
  resp <- requests_get RAWG_URL ;;
  if status_code resp =? 429 then
    wait <- lift (Num.py_int (default "10" (retry_after resp))) ;;
    sleep wait ;;;
    ret Continue
  else
    lift (raise_for_status resp) ;;;
    data <- lift (match json resp with
                  | Some d => Ok d
                  | None => Raise (ValueError "response body is not JSON")
                  end) ;;
    let results := default [] data in
    normalized <- lift (normalize_all (list_slice_to limit results)) ;;
    ret (Return normalized).

Fixpoint fetch_loop (limit : Z) (attempts : list Z) (last_exc : option exn)
  : M (list row) :=
  match attempts with
  | [] =>
      match last_exc with
      | None => raise AssertionError
      | Some e => raise e
      end
  | attempt :: rest =>
      fun w =>
        match fetch_attempt limit w with
        | (Ok (Return normalized), w') => (Ok normalized, w')
        | (Ok Continue, w') => fetch_loop limit rest last_exc w'
        | (Raise e, w') =>
            (sleep (2 * attempt) ;;; fetch_loop limit rest (Some e)) w'
        end
  end.

Definition rawg_fetch_latest (api_key : string) (limit timeout retries : Z)
  : M (list row) :=
  if negb (str_truthy api_key)
  then raise (RuntimeError "RAWG_API_KEY manquant. Renseignez-le dans .env")
  else fetch_loop limit (range 1 (retries + 1)) None.

(** *** Dedup by [game_id] keeping last (lines 239-246 of [main]) *)

Definition dedup_step (dedup : dict row) (r : row) : dict row :=
  match game_id r with
  | None => dedup
  | Some k => dict_set k r dedup
  end.

Definition dedup_by_game_id (rows : list row) : list row :=
  dict_values (fold_left dedup_step rows []).

Section Libraries.
Variable select : string -> string -> result (list Scraper.element).
Variable urlparse : string -> string * string.
Variable read_json : string -> result (list Scraper.raw_source).

Definition maybe_scrape_and_merge (env : environ) (limit : Z) : M (list row) :=
  try_catch
    (if str_in (lower (default "false" (SCRAPE_ENABLED env))) ["1"; "true"; "yes"]
     then
       srows <- Scraper.scrape_all_sources select urlparse read_json
                  (default "scrape_sources.json" (SCRAPE_CONFIG env)) limit ;;
       ret srows
     else ret [])
    (fun _ => ret []).

(** The rows handed to the upsert: catalog rows, then scraped rows,
    deduplicated. *)
Definition reconcile (api_rows scrape_rows : list row) : list row :=
  dedup_by_game_id (api_rows ++ scrape_rows)%list.

Definition main (cfg : config) (args : arguments) (env : environ) : M Z :=
  timeout <- lift (Num.py_int (HTTP_TIMEOUT cfg)) ;;
  retries <- lift (Num.py_int (HTTP_RETRIES cfg)) ;;
  try_catch
    (ensure_table (DB_TABLE cfg) ;;;
     api_rows <- (if negb (no_api args)
                  then rawg_fetch_latest (RAWG_API_KEY cfg) (limit args) timeout retries
                  else ret []) ;;
     scrape_rows <- maybe_scrape_and_merge env (limit args) ;;
     let rows := reconcile api_rows scrape_rows in
     n <- upsert_rows (DB_TABLE cfg) rows ;;
     ret 0)
    (fun _ => ret 1).
End Libraries.

End Etl.

(** ** [api_games_sans_auth.py] *)

Module Api.
Import Py.

(** A row of the [games] table as the endpoints read it, and a row of the
    [platforms] table. *)
Record game : Type := mkGame {
  g_id : Z;
  g_title : string;
  g_genres : option string
}.

Record platform : Type := mkPlatform {
  platform_id : Z;
  platform_name : string
}.

(** The database behind [connect_to_db]: [up] tells whether a connection
    can be opened. *)
Record store : Type := mkStore {
  up : bool;
  games : list game;
  platforms : list platform
}.

(** A JSON body: [{key: rows}] or [{"detail": msg}]. *)
Inductive body : Type :=
| GameRows (key : string) (rows : list game)
| PlatformRows (key : string) (rows : list platform)
| Detail (msg : string).

Record http_response : Type := mkHttp {
  status : Z;
  content : body
}.

(** What the framework sends for the outcome of a handler: the returned
    value with status 200, an [HTTPException] with its own status, any
    other exception as a 500. *)
Definition respond (r : result body) : http_response :=
  match r with
  | Ok b => mkHttp 200 b
  | Raise (HTTPException s d) => mkHttp s (Detail d)
  | Raise _ => mkHttp 500 (Detail "Internal Server Error")
  end.

(** [OAuth2PasswordBearer]: the bearer token of the request, when any. *)
Definition oauth2_scheme (bearer : option string) : result string :=
  match bearer with
  | Some token => Ok token
  | None => Raise (HTTPException 401 "Not authenticated")
  end.

Section Store.
(** Outside the repository: [jwt_decode token] is [jwt.decode(token,
    SECRET_KEY, algorithms=[ALGORITHM])] followed by [.get("sub")], and
    raises [JWTError] for a token that is invalid or expired;
    [sql_like pattern text] is the store's [text LIKE pattern] under the
    collation of the column; [str_of e] is [str(e)]. *)
Variable jwt_decode : string -> result (option string).
Variable sql_like : string -> string -> bool.
Variable str_of : exn -> string.

Definition verify_token (token : string) : result string :=
  match jwt_decode token with
  | Ok (Some username) => Ok username
  | Ok None => Raise (HTTPException 401 "Token invalide")
  | Raise JWTError => Raise (HTTPException 401 "Token invalide ou expiré")
  | Raise e => Raise e
  end.

Definition connect_to_db (db : store) : result store :=
  if up db then Ok db else Raise (DBError "Can't connect to MySQL server").

(** [except Exception as e: raise HTTPException(status_code=500, ...)] *)
Definition internal_error (e : exn) : result body :=
  Raise (HTTPException 500 ("Erreur interne : " ++ str_of e)).

Definition is_empty {A} (l : list A) : bool :=
  match l with [] => true | _ => false end.

Definition get_all_games (db : store) : result body :=
  try_except
    (rbind (connect_to_db db) (fun conn =>
     let games := games conn in
     if is_empty games
     then Raise (HTTPException 404 "Aucun jeu trouvé.")
     else Ok (GameRows "games" games)))
    internal_error.

Definition get_game_by_title (db : store) (game_title : string) : result body :=
  try_except
    (rbind (connect_to_db db) (fun conn =>
     let games :=
       List.filter (fun g => sql_like ("%" ++ game_title ++ "%") (g_title g)) (games conn) in
     if is_empty games
     then Raise (HTTPException 404 "Aucun jeu trouvé avec ce titre.")
     else Ok (GameRows "games" games)))
    internal_error.

Definition get_all_platforms (db : store) : result body :=
  try_except
    (rbind (connect_to_db db) (fun conn =>
     let platforms := platforms conn in
     if is_empty platforms
     then Raise (HTTPException 404 "Aucune plateforme trouvée.")
     else Ok (PlatformRows "platforms" platforms)))
    internal_error.

(** [SELECT * FROM games WHERE genres LIKE pattern]: a [NULL] never
    matches. *)
Definition genres_like (pattern : string) (g : game) : bool :=
  match g_genres g with
  | Some text => sql_like pattern text
  | None => false
  end.

(** The test of the filtering loop of [get_games_by_genre]. *)
Definition genre_listed (genre_name : string) (g : game) : bool :=
  match g_genres g with
  | Some text =>
      str_truthy text &&
      str_in (lower genre_name)
             (map (fun t => lower (strip t)) (split_char "," text))
  | None => false
  end.

Definition get_games_by_genre (db : store) (genre_name : string) : result body :=
  try_except
    (rbind (connect_to_db db) (fun conn =>
     let games := List.filter (genres_like ("%" ++ genre_name ++ "%")) (games conn) in
     if is_empty games
     then Raise (HTTPException 404
            ("Aucun jeu trouvé pour le genre '" ++ genre_name ++ "'."))
     else
       let filtered_games := List.filter (genre_listed genre_name) games in
       if is_empty filtered_games
       then Raise (HTTPException 404
              ("Aucun jeu trouvé pour le genre exact '" ++ genre_name ++ "'."))
       else Ok (GameRows "games" filtered_games)))
    internal_error.

(** A route declared with [dependencies=[Depends(verify_token)]]: the
    token is checked first, then the handler runs. *)
Definition route (bearer : option string) (handler : result body) : http_response :=
  respond (rbind (oauth2_scheme bearer) (fun token =>
           rbind (verify_token token) (fun _ => handler))).

Definition GET_games (bearer : option string) (db : store) : http_response :=
  route bearer (get_all_games db).

Definition GET_games_title (bearer : option string) (db : store) (game_title : string)
  : http_response :=
  route bearer (get_game_by_title db game_title).

Definition GET_platforms (bearer : option string) (db : store) : http_response :=
  route bearer (get_all_platforms db).

Definition GET_games_genre (bearer : option string) (db : store) (genre_name : string)
  : http_response :=
  route bearer (get_games_by_genre db genre_name).

End Store.
End Api.

(** ** Notions used to state the properties *)

Module Spec.

Definition has_id (k : Z) (r : row) : bool :=
  match game_id r with
  | Some k' => k' =? k
  | None => false
  end.

(** The last record of [rows] whose [game_id] is [k]. *)
Definition last_with_id (k : Z) (rows : list row) : option row :=
  List.find (has_id k) (rev rows).

(** The exception with which an attempt of the scraper's [_get] ends
    when it receives [o]: the failure of the request, or the error of
    [raise_for_status]; [None] when the response passes. *)
Definition attempt_error (o : http_outcome) : option Py.exn :=
  match o with
  | Fails k => Some (Py.RequestException k)
  | Responds r =>
      match Net.raise_for_status r with
      | Py.Raise e => Some e
      | Py.Ok _ => None
      end
  end.

(** [needle] occurs in [text], letter case apart. *)
Fixpoint contains_ci (needle text : string) : bool :=
  Py.startswith (Py.lower needle) (Py.lower text) ||
  match text with
  | EmptyString => false
  | String _ text' => contains_ci needle text'
  end.

(** The genres of a stored genre string: split on commas, each trimmed. *)
Definition genre_tokens (text : string) : list string :=
  map Py.strip (Py.split_char "," text).

(** One of the genres of [g] is [genre_name], letter case apart. *)
Definition exact_genre_match (genre_name : string) (g : Api.game) : bool :=
  match Api.g_genres g with
  | Some text =>
      existsb (fun tok => String.eqb (Py.lower tok) (Py.lower genre_name))
              (genre_tokens text)
  | None => false
  end.



(** The rows that a descriptor contributes: its rows when scraping it
    returned, none when it raised. *)
Definition contribution (outcome : Py.result (list row)) : list row :=
  match outcome with
  | Py.Ok part => part
  | Py.Raise _ => []
  end.

(** The outcome of [scrape_source] for each descriptor in turn, each one
    starting in the world that the previous one left. *)
Fixpoint outcomes (select : string -> string -> Py.result (list Scraper.element))
    (urlparse : string -> string * string) (cfgs : list Scraper.SourceCfg)
    (limit : Z) (w : world) : list (Py.result (list row)) * world :=
  match cfgs with
  | [] => ([], w)
  | cfg :: rest =>
      let (o, w1) := Scraper.scrape_source select urlparse cfg limit w in
      let (os, w2) := outcomes select urlparse rest limit w1 in
      (o :: os, w2)
  end.

(** Every entry of the dictionary is filed under its own [game_id]. *)
Definition keyed (d : Py.dict row) : Prop :=
  forall k r, (k, r) ∈ d -> game_id r = Some k.

(** The world after one more request for [url], and after a sleep. *)
Definition after_get (url : string) (w : world) : world :=
  mkWorld (net w) (S (requests w)) (trace w ++ [EvGet url]) (db_up w) (tables w).

Definition after_sleep (secs : Z) (w : world) : world :=
  mkWorld (net w) (requests w) (trace w ++ [EvSleep secs]) (db_up w) (tables w).

(** [s] occurs in [t]. *)
Definition occurs_in (s t : string) : Prop :=
  exists pre post, t = pre ++ s ++ post.

End Spec.

(** ** Sample inputs *)

Module Samples.
Import Py.

(** A world that has seen nothing yet, with an empty reachable store. *)
Definition fresh (n : nat -> string -> http_outcome) : world :=
  mkWorld n 0 [] true ∅.

(** A catalog that answers every request with 429 and no [Retry-After]. *)
Definition always_429 : nat -> string -> http_outcome :=
  fun _ _ => Responds (mkResponse 429 None EmptyString None).

(** A site that is down for the first two requests and then answers. *)
Definition third_time_lucky : nat -> string -> http_outcome :=
  fun n _ => if (n <? 2)%nat then Fails n
             else Responds (mkResponse 200 None "<ul></ul>" None).

(** A token check that accepts one token, for the user [admin]. *)
Definition sample_decode (token : string) : result (option string) :=
  if String.eqb token "valid-token" then Ok (Some "admin") else Raise JWTError.

Definition trim_percent (pattern : string) : string :=
  match pattern with
  | String "%" rest =>
      (fix drop_last (s : string) : string :=
         match s with
         | EmptyString => EmptyString
         | String "%" EmptyString => EmptyString
         | String c s' => String c (drop_last s')
         end) rest
  | _ => pattern
  end.

(** [LIKE '%x%'] under a case-insensitive collation, for an [x] without
    wildcard or escape characters. *)
Definition like_ci (pattern text : string) : bool :=
  Spec.contains_ci (trim_percent pattern) text.

(** [str(e)], after Starlette for an [HTTPException]. *)
Definition sample_str (e : exn) : string :=
  match e with
  | HTTPException s d => pretty s ++ ": " ++ d
  | DBError m => m
  | _ => "error"
  end.

Definition empty_store : Api.store := Api.mkStore true [] [].

Definition some_games : Api.store :=
  Api.mkStore true
    [ Api.mkGame 1 "Hades" (Some "Action, Indie, RPG");
      Api.mkGame 2 "Tunic" (Some "Action-Adventure, Indie");
      Api.mkGame 3 "Doom" (Some " ACTION ,Shooter");
      Api.mkGame 4 "Untagged" None ]
    [].

(** A catalog entry without a name. *)
Definition nameless_entry : rawg_entry :=
  mkEntry (Some 7) None (Some "2020-01-01") Absent Absent None "{}".

Definition named_entry : rawg_entry :=
  mkEntry (Some 8) (Some "Hades") (Some "2020-09-17")
          (Present [Some "PC"; None; Some "Switch"]) (Present ["Action"; "RPG"])
          (Some (FDec false 44 (-1))) "{}".

(** A page with two items, as a parser would present it. *)
Definition item_hades : Scraper.element := Scraper.mkElement "<li>1</li>" "Hades 4,5/5" None.
Definition item_untitled : Scraper.element := Scraper.mkElement "<li>2</li>" "" None.

Definition sample_select (html sel : string) : result (list Scraper.element) :=
  if String.eqb sel "li.game" then
    if String.eqb html "<ul>...</ul>" then Ok [item_hades; item_untitled] else Ok []
  else if String.eqb html "<li>1</li>" then
    if String.eqb sel "h2" then Ok [Scraper.mkElement "<h2>Hades</h2>" "Hades" None]
    else if String.eqb sel "a" then Ok [Scraper.mkElement "<a></a>" "" (Some "/games/hades")]
    else if String.eqb sel ".date" then Ok [Scraper.mkElement "<i></i>" "2020-09-17" None]
    else if String.eqb sel ".score" then Ok [Scraper.mkElement "<b></b>" "4,5/5" None]
    else Ok []
  else Ok [].

Definition sample_urlparse (url : string) : string * string :=
  if Py.startswith "https://down." url then ("https", "down.example")
  else ("https", "example.org").

Definition sample_fields : gmap string string :=
  list_to_map [("title", "h2"); ("link", "a"); ("release_date", ".date");
               ("rating", ".score")].

Definition sample_cfg : Scraper.SourceCfg :=
  Scraper.mkSourceCfg "site" "https://example.org" ["https://example.org/games"]
    "li.game" sample_fields (list_to_map [("platforms", "PC")]).

Definition down_cfg : Scraper.SourceCfg :=
  Scraper.mkSourceCfg "down" "https://down.example" ["https://down.example/games"]
    "li.game" sample_fields ∅.

(** The first site never answers; the second has no [robots.txt] and
    serves its list page. *)
Definition sample_net (n : nat) (url : string) : http_outcome :=
  if Py.startswith "https://down." url then Fails n
  else if String.eqb url "https://example.org/robots.txt"
  then Responds (mkResponse 404 None "" None)
  else Responds (mkResponse 200 None "<ul>...</ul>" None).

Definition sample_read_json (path : string) : result (list Scraper.raw_source) :=
  if String.eqb path "scrape_sources.json" then
    Ok [ Scraper.mkRawSource (Some "down") (Some "https://down.example")
           (Some ["https://down.example/games"]) (Some "li.game")
           (Some sample_fields) None;
         Scraper.mkRawSource (Some "site") (Some "https://example.org")
           (Some ["https://example.org/games"]) (Some "li.game")
           (Some sample_fields) (Some (list_to_map [("platforms", "PC")])) ]
  else Raise (OSError "No such file or directory").

(** What the two sample inputs are normalized into. *)
Definition named_row : row :=
  mkRow (Some 8) (Some "Hades") (Some "PC, Switch") (Some "Action, RPG")
        (Some "2020-09-17") (Some (FDec false 44 (-1))) "rawg" (Some "{}").

Definition hades_row : row :=
  mkRow (Some 4736320460920453054) (Some "Hades") (Some "PC") None
        (Some "2020-09-17") (Some (FDec false 45 (-1))) "scrape:site" None.

Definition untitled_row : row :=
  mkRow (Some 8185686306450932725) None (Some "PC") None None None "scrape:site" None.

(** A title of 300 characters, and a parser that finds it everywhere. *)
Definition long_title : string := string_of_list_ascii (repeat "a"%char 300).

Definition long_select (html sel : string) : result (list Scraper.element) :=
  Ok [Scraper.mkElement "<h2/>" long_title None].

(** A store with an empty [games] table. *)
Definition sample_world : world :=
  mkWorld sample_net 0 [] true {["games" := ∅]}.

End Samples.

(** ** Tokens of [api_games_sans_auth.py] *)

Module Auth.
Import Py.

Definition SECRET_KEY : string := "ma_cle_secrete_super_secure".
Definition ALGORITHM : string := "HS256".
Definition ACCESS_TOKEN_EXPIRE_MINUTES : Z := 60.

(** A value of a token payload: a text, or a date in microseconds since
    the epoch. *)
Inductive claim : Type :=
| Text (s : string)
| Date (t : Z).

(** [timedelta(minutes=m)], in microseconds. *)
Definition minutes (m : Z) : Z := m * 60000000.

(** The body of the answer of [POST /token]. *)
Record token_answer : Type := mkToken {
  access_token : string;
  token_type : string
}.

Section Jwt.
(** Outside the repository: [jwt_encode payload key algorithm] is
    [jwt.encode]; [utcnow] is [datetime.utcnow()] at the time of the call. *)
Variable jwt_encode : gmap string claim -> string -> string -> string.
Variable utcnow : Z.

(** A [timedelta] of zero is falsy, like [None]. *)
Definition create_access_token (data : gmap string claim) (expires_delta : option Z)
  : string :=
  let to_encode := data in
  let expire :=
    utcnow + match expires_delta with
             | Some d => if d =? 0 then minutes 15 else d
             | None => minutes 15
             end in
  let to_encode := <["exp" := Date expire]> to_encode in
  jwt_encode to_encode SECRET_KEY ALGORITHM.

Definition login (username password : string) : result token_answer :=
  if negb (String.eqb username "admin") || negb (String.eqb password "admin")
  then Raise (HTTPException 401 "Nom d'utilisateur ou mot de passe invalide")
  else
    let access_token_expires := minutes ACCESS_TOKEN_EXPIRE_MINUTES in
    let access_token :=
      create_access_token {["sub" := Text username]} (Some access_token_expires) in
    Ok (mkToken access_token "bearer").

End Jwt.
End Auth.

(** ** The entry point of [etl_games.py] *)

Module Entry.
Import Py Net.

(** [load_config], for the entries that the run reads: [getenv] is
    [os.getenv] once [load_dotenv] has run. A variable that is set, even
    to the empty string, is taken as it is. *)
Definition load_config (getenv : string -> option string) : Etl.config :=
  Etl.mkConfig (default "" (getenv "RAWG_API_KEY"))
               (default "games" (getenv "DB_TABLE"))
               (default "20" (getenv "HTTP_TIMEOUT"))
               (default "3" (getenv "HTTP_RETRIES")).

Section Libraries.
Variable select : string -> string -> Py.result (list Scraper.element).
Variable urlparse : string -> string * string.
Variable read_json : string -> Py.result (list Scraper.raw_source).

(** The stages of [main] inside its [try] block. *)
Definition stages (cfg : Etl.config) (args : Etl.arguments) (env : Etl.environ)
    (timeout retries : Z) : Net.M Z :=
  (Etl.ensure_table (Etl.DB_TABLE cfg) ;;;
   api_rows <- (if negb (Etl.no_api args)
                then Etl.rawg_fetch_latest (Etl.RAWG_API_KEY cfg) (Etl.limit args)
                                           timeout retries
                else Net.ret []) ;;
   scrape_rows <- Etl.maybe_scrape_and_merge select urlparse read_json env
                    (Etl.limit args) ;;
   let rows := Etl.reconcile api_rows scrape_rows in
   n <- Etl.upsert_rows (Etl.DB_TABLE cfg) rows ;;
   Net.ret 0)%net.

(** [main()] as the script runs it: the configuration and the scraping
    switches both come from the environment. *)
Definition run (getenv : string -> option string) (args : Etl.arguments)
  : Net.M Z :=
  Etl.main select urlparse read_json (load_config getenv) args
           (Etl.mkEnviron (getenv "SCRAPE_ENABLED") (getenv "SCRAPE_CONFIG")).

End Libraries.
End Entry.

(** ** Further notions *)

Module Notions.

(** A row that the table accepts: its two [NOT NULL] columns are given. *)
Definition storable (r : row) : bool :=
  match game_id r, title r with
  | Some _, Some _ => true
  | _, _ => false
  end.

(** What a table that held [t] holds under key [k] once the batch [rows]
    has been applied to it. *)
Definition after_batch (t : gmap Z row) (rows : list row) (k : Z) : option row :=
  match Spec.last_with_id k rows with
  | Some r => Some r
  | None => t !! k
  end.

(** The world [w] as it is when its [n]-th request is about to be made. *)
Definition at_request (w : world) (n : nat) : world :=
  mkWorld (net w) n (trace w) (db_up w) (tables w).

(** The requests and sleeps of attempts that all fail, each attempt [i]
    being followed by a sleep of [pause i] seconds. *)
Definition backoff (url : string) (pause : Z -> Z) (attempts : list Z) : list event :=
  flat_map (fun i => [EvGet url; EvSleep (pause i)]) attempts.



(** An event of the network side: a request for [url], or a sleep. *)
Definition net_event (url : string) (ev : event) : Prop :=
  ev = EvGet url \/ exists secs, 0 <= secs /\ ev = EvSleep secs.

(** The values of the [Disallow] lines of a [robots.txt]: for each line
    that starts with ["disallow:"], letter case apart, what stands between
    its first and its second colon, trimmed. *)
Definition disallow_values (text : string) : list string :=
  map (fun line => Py.strip (nth 1 (Py.split_char ":" line) EmptyString))
      (List.filter (fun line => Py.startswith "disallow:" (Py.lower line))
                   (Scraper.splitlines text)).

(** The address at which [_allowed_by_robots] looks for the rules. *)
Definition robots_url (urlparse : string -> string * string) (base : string) : string :=
  fst (urlparse base) ++ "://" ++ snd (urlparse base) ++ "/robots.txt".

(** An optional text of the scraper path: absent or non-empty. *)
Definition present (x : option string) : Prop :=
  x = None \/ Py.opt_truthy x = true.

(** What every row scraped for the descriptor [cfg] satisfies: [key] names
    a field that has a constant fallback. *)
Definition with_fallback (cfg : Scraper.SourceCfg) (key : string) (x : option string)
  : Prop :=
  present x \/ Scraper.constant_fields cfg !! key = x.

Definition scraped_row (cfg : Scraper.SourceCfg) (r : row) : Prop :=
  source r = "scrape:" ++ Scraper.name cfg /\ raw_json r = None /\
  (exists k, game_id r = Some k /\ 0 <= k < 2 ^ 63 - 1) /\
  present (title r) /\ present (release_date r) /\
  with_fallback cfg "platforms" (platforms r) /\
  with_fallback cfg "genres" (genres r).

(** A source entry that has its four required keys. *)
Definition complete (s : Scraper.raw_source) : bool :=
  match Scraper.rs_name s, Scraper.rs_base_url s, Scraper.rs_list_urls s,
        Scraper.rs_item_selector s with
  | Some _, Some _, Some _, Some _ => true
  | _, _, _, _ => false
  end.

(** The descriptor [c] is the entry [s], its two optional maps empty when
    not given. *)
Definition loaded (s : Scraper.raw_source) (c : Scraper.SourceCfg) : Prop :=
  Scraper.rs_name s = Some (Scraper.name c) /\
  Scraper.rs_base_url s = Some (Scraper.base_url c) /\
  Scraper.rs_list_urls s = Some (Scraper.list_urls c) /\
  Scraper.rs_item_selector s = Some (Scraper.item_selector c) /\
  Scraper.fields c = default ∅ (Scraper.rs_fields s) /\
  Scraper.constant_fields c = default ∅ (Scraper.rs_constant_fields s).

(** Whether [SCRAPE_ENABLED] switches scraping on. *)
Definition scrape_enabled (env : Etl.environ) : bool :=
  Py.str_in (Py.lower (default "false" (Etl.SCRAPE_ENABLED env))) ["1"; "true"; "yes"].

(** The answers that a route of the read API can give: the rows under a
    key with status 200, there being at least one row, or a message with
    status 401 or 500. *)
Definition answer_ok (a : Api.http_response) : Prop :=
  (Api.status a = 200 /\
   ((exists key rows, Api.content a = Api.GameRows key rows /\ rows <> []) \/
    (exists key rows, Api.content a = Api.PlatformRows key rows /\ rows <> []))) \/
  ((Api.status a = 401 \/ Api.status a = 500) /\
   exists msg, Api.content a = Api.Detail msg).

(** What a handler of the read API ends with: rows, at least one, or an
    [HTTPException] with status 500. *)
Definition guarded (h : Py.result Api.body) : Prop :=
  (exists key rows, h = Py.Ok (Api.GameRows key rows) /\ rows <> []) \/
  (exists key rows, h = Py.Ok (Api.PlatformRows key rows) /\ rows <> []) \/
  exists msg, h = Py.Raise (Py.HTTPException 500 msg).

End Notions.

(** ** Further sample inputs *)

Module Inputs.
Import Py Samples.


Definition stored_world : world :=
  mkWorld sample_net 0
    [EvBegin; EvUpsert "games" [named_row; hades_row]; EvCommit]
    true {["games" := {[8 := named_row; 4736320460920453054 := hades_row]}]}.

(** A catalog that is rate limiting and gives the date of the next slot. *)
Definition dated_429 : nat -> string -> http_outcome :=
  fun _ _ => Responds (mkResponse 429 (Some "Wed, 21 Oct 2015 07:28:00 GMT")
                                  EmptyString None).

(** A catalog that fails twice, with a 503 and with a body that is not
    JSON, and then serves two entries. *)
Definition flaky_catalog : nat -> string -> http_outcome :=
  fun n _ =>
    if (n =? 0)%nat then Responds (mkResponse 503 None "busy" None)
    else if (n =? 1)%nat then Responds (mkResponse 200 None "<html>" None)
    else Responds (mkResponse 200 None "{...}"
                     (Some (Some [named_entry; nameless_entry]))).

Definition nameless_row : row :=
  mkRow (Some 7) None None None (Some "2020-01-01") None "rawg" (Some "{}").

(** A catalog that is down. *)
Definition dead_catalog : nat -> string -> http_outcome := fun n _ => Fails n.


(** A [robots.txt] that closes the root, among other rules, and a site
    that serves it. *)
Definition newline : string := String (ascii_of_nat 10) EmptyString.

Definition closed_robots : string :=
  "User-agent: *" ++ newline ++ "Disallow: /private" ++ newline ++
  "DISALLOW:/  " ++ newline ++ "Allow: /games".

Definition closed_site : nat -> string -> http_outcome :=
  fun _ url =>
    if String.eqb url "https://example.org/robots.txt"
    then Responds (mkResponse 200 None closed_robots None)
    else Responds (mkResponse 200 None "<ul>...</ul>" None).

(** The world after the list page of the sample site has been scraped. *)
Definition scraped_world : world :=
  mkWorld sample_net 2
    [EvGet "https://example.org/robots.txt"; EvGet "https://example.org/games";
     EvSleep 1]
    true ∅.

(** A configuration whose second source has no item selector. *)
Definition broken_read_json (path : string) : result (list Scraper.raw_source) :=
  Ok [ Scraper.mkRawSource (Some "site") (Some "https://example.org")
         (Some ["https://example.org/games"]) (Some "li.game") None None;
       Scraper.mkRawSource (Some "down") (Some "https://down.example")
         (Some ["https://down.example/games"]) None (Some sample_fields) None ].

Definition broken_data : list Scraper.raw_source :=
  [ Scraper.mkRawSource (Some "site") (Some "https://example.org")
      (Some ["https://example.org/games"]) (Some "li.game") None None;
    Scraper.mkRawSource (Some "down") (Some "https://down.example")
      (Some ["https://down.example/games"]) None (Some sample_fields) None ].

(** An environment that sets nothing, and one that only names the table. *)
Definition no_environment : string -> option string := fun _ => None.

Definition table_only : string -> option string :=
  fun key => if String.eqb key "DB_TABLE" then Some "jeux" else None.

(** A token library that writes the subject in clear, and forgets the
    rest. *)
Definition sample_encode (payload : gmap string Auth.claim) (key algorithm : string)
  : string :=
  match payload !! "sub" with
  | Some (Auth.Text user) => "sub=" ++ user
  | _ => EmptyString
  end.

Definition sample_decode_sub (token : string) : result (option string) :=
  match token with
  | String "s" (String "u" (String "b" (String "=" user))) => Ok (Some user)
  | _ => Raise JWTError
  end.



(** The sample descriptor with a second list page. *)
Definition two_page_cfg : Scraper.SourceCfg :=
  Scraper.mkSourceCfg "site" "https://example.org"
    ["https://example.org/games"; "https://example.org/games?page=2"]
    "li.game" sample_fields (list_to_map [("platforms", "PC")]).

End Inputs.

(** * Properties *)

(** ** Ordered dictionaries *)

Module DictFacts.
Import Py.

Section WithValues.
Context {V : Type}.
Implicit Types (d : dict V) (k : Z) (v : V).

Lemma dict_get_set k k' v d :
  dict_get k (dict_set k' v d) = if k' =? k then Some v else dict_get k d.
Proof.
  induction d as [|[k0 v0] d IH]; simpl.
  - destruct (k' =? k); reflexivity.
  - destruct (k0 =? k') eqn:E0; simpl.
    + apply Z.eqb_eq in E0; subst k0.
      destruct (k' =? k); reflexivity.
    + rewrite IH. destruct (k' =? k) eqn:E1; [|reflexivity].
      apply Z.eqb_eq in E1; subst k'. rewrite E0. reflexivity.
Qed.

Lemma dict_set_elem k v d kv :
  kv ∈ dict_set k v d -> kv = (k, v) \/ kv ∈ d.
Proof.
  induction d as [|[k0 v0] d IH]; simpl.
  - rewrite list_elem_of_singleton. auto.
  - destruct (k0 =? k) eqn:E.
    + apply Z.eqb_eq in E; subst k0.
      rewrite !elem_of_cons. intros [->|H]; auto.
    + rewrite !elem_of_cons. intros [->|H]; auto.
      destruct (IH H); auto.
Qed.

Lemma dict_set_keys k v d :
  dict_keys (dict_set k v d) =
  if bool_decide (k ∈ dict_keys d) then dict_keys d
  else (dict_keys d ++ [k])%list.
Proof.
  unfold dict_keys.
  induction d as [|[k0 v0] d IH]; cbn [dict_set map fst].
  - rewrite bool_decide_eq_false_2; [reflexivity | apply not_elem_of_nil].
  - destruct (k0 =? k) eqn:E; cbn [map fst].
    + apply Z.eqb_eq in E; subst k0.
      rewrite bool_decide_eq_true_2; [reflexivity | apply list_elem_of_here].
    + apply Z.eqb_neq in E. rewrite IH.
      destruct (decide (k ∈ map fst d)) as [Hin|Hnin].
      * rewrite !bool_decide_eq_true_2; [reflexivity | | exact Hin].
        now apply list_elem_of_further.
      * rewrite !bool_decide_eq_false_2; [reflexivity | | exact Hnin].
        rewrite elem_of_cons. intros [->|H]; [congruence | contradiction].
Qed.

Lemma dict_set_nodup k v d :
  NoDup (dict_keys d) -> NoDup (dict_keys (dict_set k v d)).
Proof.
  intros Hd. rewrite dict_set_keys.
  destruct (bool_decide (k ∈ dict_keys d)) eqn:E; [exact Hd|].
  apply bool_decide_eq_false_1 in E.
  apply NoDup_app. split; [exact Hd|]. split; [|apply NoDup_singleton].
  intros x Hx Hk. apply list_elem_of_singleton in Hk. subst x. contradiction.
Qed.

Lemma dict_get_elem k v d : dict_get k d = Some v -> (k, v) ∈ d.
Proof.
  induction d as [|[k0 v0] d IH]; simpl; [discriminate|].
  destruct (k0 =? k) eqn:E.
  - apply Z.eqb_eq in E; subst k0. intros [= ->]. apply list_elem_of_here.
  - intros H. apply list_elem_of_further. auto.
Qed.

Lemma dict_elem_get k v d :
  NoDup (dict_keys d) -> (k, v) ∈ d -> dict_get k d = Some v.
Proof.
  unfold dict_keys.
  induction d as [|[k0 v0] d IH]; simpl.
  - intros _ H. apply not_elem_of_nil in H. contradiction.
  - rewrite NoDup_cons, elem_of_cons. intros [Hnotin Hnd] [Heq|Hin].
    + injection Heq as -> ->. now rewrite Z.eqb_refl.
    + destruct (k0 =? k) eqn:E; [|auto].
      apply Z.eqb_eq in E; subst k0.
      exfalso. apply Hnotin.
      apply (list_elem_of_fmap_2 fst) in Hin. exact Hin.
Qed.
End WithValues.
End DictFacts.

(** ** Deduplication *)

Module DedupFacts.
Import Py DictFacts Spec Etl.

Lemma dedup_step_keyed d r : keyed d → keyed (dedup_step d r).
Proof.
  unfold dedup_step. destruct (game_id r) as [k|] eqn:E; [|auto].
  intros Hd k' r' Hin. apply dict_set_elem in Hin as [[= -> ->]|Hin]; auto.
Qed.

Lemma dedup_step_nodup d r :
  NoDup (dict_keys d) → NoDup (dict_keys (dedup_step d r)).
Proof.
  unfold dedup_step. destruct (game_id r); [apply dict_set_nodup | auto].
Qed.

Lemma dedup_step_get k d r :
  dict_get k (dedup_step d r) = if has_id k r then Some r else dict_get k d.
Proof.
  unfold dedup_step, has_id. destruct (game_id r); [apply dict_get_set | reflexivity].
Qed.

Lemma fold_keyed rows : ∀ d, keyed d → keyed (fold_left dedup_step rows d).
Proof.
  induction rows as [|r rows IH]; simpl; auto using dedup_step_keyed.
Qed.

Lemma fold_nodup rows :
  ∀ d, NoDup (dict_keys d) → NoDup (dict_keys (fold_left dedup_step rows d)).
Proof.
  induction rows as [|r rows IH]; simpl; auto using dedup_step_nodup.
Qed.

Lemma find_snoc {A} (f : A → bool) (l : list A) (x : A) :
  List.find f (l ++ [x]) =
  match List.find f l with
  | Some y => Some y
  | None => if f x then Some x else None
  end.
Proof.
  induction l as [|a l IH]; simpl; [reflexivity|].
  destruct (f a); [reflexivity | exact IH].
Qed.

(** What the loop leaves under key [k]: the last record of [rows] with
    that id, or what was there before when [rows] has none. *)
Lemma fold_get k rows :
  ∀ d, dict_get k (fold_left dedup_step rows d) =
       match last_with_id k rows with
       | Some r => Some r
       | None => dict_get k d
       end.
Proof.
  unfold last_with_id.
  induction rows as [|r rows IH]; intros d; simpl; [reflexivity|].
  rewrite IH, find_snoc, dedup_step_get.
  destruct (List.find (has_id k) (rev rows)); [reflexivity|].
  destruct (has_id k r); reflexivity.
Qed.

Lemma keyed_ids d :
  keyed d → game_id <$> dict_values d = Some <$> dict_keys d.
Proof.
  unfold dict_values, dict_keys.
  induction d as [|[k r] d IH]; intros Hd; simpl; [reflexivity|].
  rewrite (Hd k r) by apply list_elem_of_here.
  f_equal. apply IH. intros k' r' Hin. apply Hd. now apply list_elem_of_further.
Qed.

(** C1: in the batch handed to the upsert, no record lacks a [game_id],
    no [game_id] occurs twice, and the records of the batch are exactly,
    for each [game_id] of the input, the last input record with that id,
    the input being the catalog rows followed by the scraped rows. *)
Theorem dedup_last_write_wins (api_rows scrape_rows : list row) :
  let rows := (api_rows ++ scrape_rows)%list in
  let batch := reconcile api_rows scrape_rows in
  (∀ r, r ∈ batch → game_id r ≠ None) ∧
  NoDup (game_id <$> batch) ∧
  (∀ r, r ∈ batch ↔ ∃ k, game_id r = Some k ∧ last_with_id k rows = Some r).
Proof.
  intros rows batch. subst batch. unfold reconcile, dedup_by_game_id.
  fold rows. set (d := fold_left dedup_step rows []).
  assert (Hk : keyed d).
  { apply fold_keyed. intros k r H. apply not_elem_of_nil in H. contradiction. }
  assert (Hn : NoDup (dict_keys d)) by (apply fold_nodup, NoDup_nil_2).
  assert (Hg : ∀ k, dict_get k d = last_with_id k rows).
  { intros k. unfold d. rewrite fold_get. simpl.
    destruct (last_with_id k rows); reflexivity. }
  assert (Hv : ∀ r, r ∈ dict_values d ↔ ∃ k, (k, r) ∈ d).
  { intros r. unfold dict_values. rewrite list_elem_of_fmap. split.
    - intros [[k r'] [-> Hin]]. now exists k.
    - intros [k Hin]. now exists (k, r). }
  split; [|split].
  - intros r Hr. apply Hv in Hr as [k Hin]. rewrite (Hk _ _ Hin). discriminate.
  - rewrite (keyed_ids d Hk). apply NoDup_fmap_2; [|exact Hn].
    intros x y [= ->]. reflexivity.
  - intros r. rewrite Hv. split.
    + intros [k Hin]. exists k. split; [exact (Hk _ _ Hin)|].
      rewrite <- Hg. now apply dict_elem_get.
    + intros [k [_ Hl]]. exists k. apply dict_get_elem. now rewrite Hg.
Qed.

(** Two catalog rows and a scraped row that collides with the first: the
    scraped record is the one kept, at the place of the first. *)
Example dedup_collision :
  let a := mkRow (Some 1) (Some "A") None None None None "rawg" None in
  let b := mkRow (Some 2) (Some "B") None None None None "rawg" None in
  let s := mkRow (Some 1) (Some "S") None None None None "scrape:site" None in
  let x := mkRow None (Some "X") None None None None "rawg" None in
  reconcile [a; x; b] [s] = [s; b].
Proof. reflexivity. Qed.

End DedupFacts.

(** ** Requests, sleeps and the retry loops *)

Module NetFacts.
Import Py Net Spec Samples.

Lemma requests_get_eq url w :
  requests_get url w =
  (match net w (requests w) url with
   | Fails k => Raise (RequestException k)
   | Responds r => Ok r
   end, after_get url w).
Proof.
  unfold requests_get, after_get. destruct (net w (requests w) url); reflexivity.
Qed.

Lemma sleep_eq secs w : 0 ≤ secs → sleep secs w = (Ok tt, after_sleep secs w).
Proof.
  intros H. unfold sleep. destruct (secs <? 0) eqn:E; [lia | reflexivity].
Qed.

Lemma range_nonneg lo hi : 0 ≤ lo → Forall (λ a, 0 ≤ a) (range lo hi).
Proof.
  intros H. unfold range. apply Forall_forall. intros a Ha.
  apply list_elem_of_In, in_map_iff in Ha as [i [<- _]]. lia.
Qed.

Lemma range_length lo hi : length (range lo hi) = Z.to_nat (hi - lo).
Proof. unfold range. now rewrite length_map, length_seq. Qed.

Lemma get_attempt_eq url w :
  Scraper.get_attempt url w =
  (match net w (requests w) url with
   | Fails k => Raise (RequestException k)
   | Responds r =>
       match raise_for_status r with
       | Ok _ => Ok r
       | Raise e => Raise e
       end
   end, after_get url w).
Proof.
  unfold Scraper.get_attempt, bind. rewrite requests_get_eq.
  destruct (net w (requests w) url) as [k|r]; [reflexivity|].
  unfold lift, ret. destruct (raise_for_status r); reflexivity.
Qed.

(** The loop of [_get], started at any point: a returned response is the
    one of the last request made and it passed the status check; [None] is
    returned only when the loop has nothing left to try and has seen no
    exception; a raised exception is the one of the last request made, or
    the one handed over when there was nothing left to try. *)
Lemma get_loop_spec url attempts :
  ∀ last w res w',
    Forall (λ a, 0 ≤ a) attempts →
    Scraper.get_loop url attempts last w = (res, w') →
    net w' = net w ∧
    match res with
    | Ok (Some resp) =>
        (requests w < requests w' ≤ requests w + length attempts)%nat ∧
        net w (requests w' - 1)%nat url = Responds resp ∧
        raise_for_status resp = Ok tt
    | Ok None => attempts = [] ∧ last = None
    | Raise e =>
        requests w' = (requests w + length attempts)%nat ∧
        match attempts with
        | [] => last = Some e
        | _ => attempt_error (net w (requests w' - 1)%nat url) = Some e
        end
    end.
Proof.
  induction attempts as [|a rest IH]; intros last w res w' Hpos Hrun.
  - simpl in Hrun. destruct last as [e|]; injection Hrun as <- <-;
      (split; [reflexivity|]); simpl; auto with lia.
  - apply Forall_cons in Hpos as [Ha Hrest].
    cbn [Scraper.get_loop] in Hrun. rewrite get_attempt_eq in Hrun.
    assert (Hstep : ∀ e, attempt_error (net w (requests w) url) = Some e →
              (sleep a ;;; Scraper.get_loop url rest (Some e))%net
                (after_get url w) = (res, w') →
              net w' = net w ∧
              match res with
              | Ok (Some resp) =>
                  (requests w < requests w' ≤ requests w + length (a :: rest))%nat ∧
                  net w (requests w' - 1)%nat url = Responds resp ∧
                  raise_for_status resp = Ok tt
              | Ok None => a :: rest = [] ∧ last = None
              | Raise e' =>
                  requests w' = (requests w + length (a :: rest))%nat ∧
                  attempt_error (net w (requests w' - 1)%nat url) = Some e'
              end).
    { intros e He Hk. unfold bind in Hk. rewrite sleep_eq in Hk by exact Ha.
      apply IH in Hk as [Hnet Hres]; [|exact Hrest].
      simpl in Hnet. split; [exact Hnet|].
      destruct res as [[resp|]|e']; simpl in Hres |- *.
      - destruct Hres as [Hle [Hr Hs]]. split; [lia|]. split; [exact Hr | exact Hs].
      - destruct Hres as [_ Habs]. discriminate.
      - destruct Hres as [Hn Hlast]. split; [lia|].
        destruct rest as [|b rest'].
        + injection Hlast as <-. simpl in Hn.
          replace (requests w' - 1)%nat with (requests w) by lia. exact He.
        + exact Hlast. }
    destruct (net w (requests w) url) as [k|r] eqn:Enet.
    + apply (Hstep (RequestException k)); [reflexivity | exact Hrun].
    + destruct (raise_for_status r) as [u|e] eqn:Es.
      * injection Hrun as <- <-. split; [reflexivity|]. simpl.
        rewrite Nat.sub_0_r. split; [lia|]. split; [exact Enet | now destruct u].
      * apply (Hstep e); [simpl; now rewrite Es | exact Hrun].
Qed.

Lemma get_spec url retries timeout w res w' :
  1 ≤ retries →
  Scraper._get url retries timeout w = (res, w') →
  match res with
  | Ok (Some resp) =>
      raise_for_status resp = Ok tt ∧
      net w (requests w' - 1)%nat url = Responds resp
  | Ok None => False
  | Raise e =>
      requests w' = (requests w + Z.to_nat retries)%nat ∧
      attempt_error (net w (requests w' - 1)%nat url) = Some e
  end.
Proof.
  intros Hr Hrun. unfold Scraper._get in Hrun.
  pose proof (range_length 1 (retries + 1)) as Hlen.
  replace (retries + 1 - 1) with retries in Hlen by lia.
  apply get_loop_spec in Hrun as [_ Hres]; [|apply range_nonneg; lia].
  destruct res as [[resp|]|e].
  - destruct Hres as [_ [Hn Hs]]. now split.
  - destruct Hres as [Hnil _]. rewrite Hnil in Hlen. simpl in Hlen. lia.
  - destruct Hres as [Hn He]. rewrite Hlen in Hn. split; [exact Hn|].
    destruct (range 1 (retries + 1)); [simpl in Hlen; lia | exact He].
Qed.

(** C9: with at least one attempt allowed, [_get] returns a response that
    passed [raise_for_status], the one of its last request, or raises the
    exception of its last request, after [retries] requests; it does not
    return [None].  Hence, called as [scrape_source] calls it, what it
    returns always has a [text]. *)
Theorem get_returns_response_or_raises (url : string) (retries timeout : Z)
    (w : world) :
  1 ≤ retries →
  (let '(res, w') := Scraper._get url retries timeout w in
   match res with
   | Ok (Some resp) =>
       raise_for_status resp = Ok tt ∧
       net w (requests w' - 1)%nat url = Responds resp
   | Ok None => False
   | Raise e =>
       requests w' = (requests w + Z.to_nat retries)%nat ∧
       attempt_error (net w (requests w' - 1)%nat url) = Some e
   end) ∧
  (∀ u w0 r w1,
     Scraper._get u Scraper.DEFAULT_RETRIES Scraper.DEFAULT_TIMEOUT w0 = (Ok r, w1) →
     ∃ resp, r = Some resp ∧ Scraper.text_of r = Ok (text resp)).
Proof.
  intros Hr. split.
  - destruct (Scraper._get url retries timeout w) as [res w'] eqn:Hrun.
    exact (get_spec _ _ _ _ _ _ Hr Hrun).
  - intros u w0 r w1 Hrun.
    apply get_spec in Hrun; [|unfold Scraper.DEFAULT_RETRIES; lia].
    destruct r as [resp|]; [|contradiction].
    exists resp. split; reflexivity.
Qed.

Lemma get_returns_response_or_raises_witness :
  1 ≤ 3 ∧
  (let '(res, w') := Scraper._get "https://example.org/games" 3 20
                       (fresh third_time_lucky) in
   match res with
   | Ok (Some resp) =>
       raise_for_status resp = Ok tt ∧
       net (fresh third_time_lucky) (requests w' - 1)%nat
           "https://example.org/games" = Responds resp
   | Ok None => False
   | Raise e =>
       requests w' = (requests (fresh third_time_lucky) + Z.to_nat 3)%nat ∧
       attempt_error (net (fresh third_time_lucky) (requests w' - 1)%nat
                          "https://example.org/games") = Some e
   end) ∧
  (∀ u w0 r w1,
     Scraper._get u Scraper.DEFAULT_RETRIES Scraper.DEFAULT_TIMEOUT w0 = (Ok r, w1) →
     ∃ resp, r = Some resp ∧ Scraper.text_of r = Ok (text resp)).
Proof.
  split; [lia|].
  apply (get_returns_response_or_raises "https://example.org/games" 3 20
           (fresh third_time_lucky)).
  lia.
Defined.

(** With no attempt allowed the loop falls through to [return None]. *)
Example get_zero_retries :
  fst (Scraper._get "https://example.org/games" 0 20 (fresh third_time_lucky)) = Ok None.
Proof. reflexivity. Qed.

Example get_third_time_lucky :
  let '(res, w') := Scraper._get "https://example.org/games" 3 20 (fresh third_time_lucky) in
  res = Ok (Some (mkResponse 200 None "<ul></ul>" None)) ∧
  trace w' = [EvGet "https://example.org/games"; EvSleep 1;
              EvGet "https://example.org/games"; EvSleep 2;
              EvGet "https://example.org/games"].
Proof. split; reflexivity. Qed.

End NetFacts.

(** ** The catalog fetcher *)

Module RawgFacts.
Import Py Net Spec Samples NetFacts Etl.

(** One pass through the [try] block makes exactly one request. *)
Lemma fetch_attempt_world limit w :
  net (snd (fetch_attempt limit w)) = net w ∧
  requests (snd (fetch_attempt limit w)) = S (requests w).
Proof.
  unfold fetch_attempt, bind. rewrite requests_get_eq.
  destruct (net w (requests w) RAWG_URL) as [k|r]; [split; reflexivity|].
  destruct (status_code r =? 429).
  - unfold lift. destruct (Num.py_int _) as [wait|e]; [|split; reflexivity].
    unfold sleep. destruct (wait <? 0); split; reflexivity.
  - unfold lift. destruct (raise_for_status r); [|split; reflexivity].
    destruct (json r); [|split; reflexivity].
    destruct (normalize_all _); split; reflexivity.
Qed.

Lemma fetch_loop_world limit attempts :
  ∀ last w,
    Forall (λ a, 0 ≤ a) attempts →
    net (snd (fetch_loop limit attempts last w)) = net w ∧
    (requests (snd (fetch_loop limit attempts last w))
     ≤ requests w + length attempts)%nat.
Proof.
  induction attempts as [|a rest IH]; intros last w Hpos.
  - simpl. destruct last; simpl; split; auto with lia.
  - apply Forall_cons in Hpos as [Ha Hrest].
    cbn [fetch_loop].
    destruct (fetch_attempt_world limit w) as [Hnet Hreq].
    destruct (fetch_attempt limit w) as [[[|rows]|e] w1]; simpl in Hnet, Hreq.
    + destruct (IH last w1 Hrest) as [Hn Hr]. rewrite Hn, Hnet.
      split; [reflexivity | simpl; lia].
    + simpl. split; [exact Hnet | lia].
    + unfold bind. rewrite sleep_eq by lia.
      destruct (IH (Some e) (after_sleep (2 * a) w1) Hrest) as [Hn Hr].
      rewrite Hn. simpl in *. split; [exact Hnet | lia].
Qed.

(** Whatever the catalog answers, [rawg_fetch_latest] makes at most
    [retries] requests. *)
Lemma rawg_attempts_bounded api_key limit timeout retries w :
  (requests (snd (rawg_fetch_latest api_key limit timeout retries w))
   ≤ requests w + Z.to_nat retries)%nat.
Proof.
  unfold rawg_fetch_latest. destruct (negb (str_truthy api_key)); [simpl; lia|].
  destruct (fetch_loop_world limit (range 1 (retries + 1)) None w) as [_ H].
  - apply range_nonneg. lia.
  - rewrite range_length in H. replace (retries + 1 - 1) with retries in H by lia.
    exact H.
Qed.

(** A 429 without [Retry-After] is slept on for 10 seconds and uses up
    the attempt without recording any exception. *)
Lemma fetch_attempt_429 limit w r :
  net w (requests w) RAWG_URL = Responds r →
  status_code r = 429 →
  retry_after r = None →
  fetch_attempt limit w = (Ok Continue, after_sleep 10 (after_get RAWG_URL w)).
Proof.
  intros Hnet Hs Hh. unfold fetch_attempt, bind.
  rewrite requests_get_eq, Hnet, Hs, Hh. reflexivity.
Qed.

(** When every answer is such a 429, the loop ends with no exception to
    raise and the assertion fails. *)
Lemma fetch_loop_all_429 limit attempts :
  ∀ w,
    (∀ n, ∃ r, net w n RAWG_URL = Responds r ∧ status_code r = 429 ∧
               retry_after r = None) →
    fst (fetch_loop limit attempts None w) = Raise AssertionError.
Proof.
  induction attempts as [|a rest IH]; intros w Hall; [reflexivity|].
  cbn [fetch_loop].
  destruct (Hall (requests w)) as [r [Hnet [Hs Hh]]].
  rewrite (fetch_attempt_429 limit w r Hnet Hs Hh).
  apply IH. exact Hall.
Qed.

(** C2, at the failing input: with three attempts allowed and a catalog
    that answers 429 each time, the fetcher makes three requests, sleeps 10
    seconds after each, and then fails its own assertion instead of
    raising a failure it encountered. *)
Theorem rawg_rate_limited_to_exhaustion :
  let '(res, w') := rawg_fetch_latest "key" 50 20 3 (fresh always_429) in
  res = Raise AssertionError ∧
  requests w' = 3%nat ∧
  trace w' = [EvGet RAWG_URL; EvSleep 10; EvGet RAWG_URL; EvSleep 10;
              EvGet RAWG_URL; EvSleep 10].
Proof. repeat split; reflexivity. Qed.

End RawgFacts.

(** ** Strings *)

Module StrFacts.
Import Py Spec.


Lemma append_cons (c : ascii) (a b : string) : String c a ++ b = String c (a ++ b).
Proof. reflexivity. Qed.

Lemma append_assoc (a b c : string) : (a ++ b) ++ c = a ++ (b ++ c).
Proof.
  induction a as [|x a IH]; [reflexivity|].
  rewrite !append_cons. f_equal. exact IH.
Qed.




Lemma occurs_in_prefix s rest : occurs_in s (s ++ rest).
Proof. now exists EmptyString, rest. Qed.



Lemma occurs_in_cons c s t : occurs_in s t → occurs_in s (String c t).
Proof. intros [p [q ->]]. now exists (String c p), q. Qed.




(** The first piece of a split starts the text, and the other pieces
    occur in it. *)
Lemma split_char_pieces sep text :
  ∃ w ws rest,
    split_char sep text = w :: ws ∧ text = w ++ rest ∧
    ∀ tok, tok ∈ ws → occurs_in tok text.
Proof.
  induction text as [|c text (w & ws & rest & Hs & Ht & Hws)]; cbn [split_char].
  - exists EmptyString, [], EmptyString. repeat split.
    intros tok H. apply not_elem_of_nil in H. contradiction.
  - destruct (Ascii.eqb c sep).
    + exists EmptyString, (split_char sep text), (String c text).
      repeat split. intros tok Htok. apply occurs_in_cons.
      rewrite Hs in Htok. apply elem_of_cons in Htok as [->|Htok]; [|auto].
      rewrite Ht. apply occurs_in_prefix.
    + rewrite Hs. exists (String c w), ws, rest. repeat split.
      * rewrite append_cons. now rewrite <- Ht.
      * intros tok Htok. apply occurs_in_cons. auto.
Qed.




End StrFacts.

(** ** The read API *)

Module ApiFacts.
Import Py Spec Samples StrFacts Api.

Section Store.
Variable jwt_decode : string → result (option string).
Variable sql_like : string → string → bool.
Variable str_of : exn → string.

Lemma route_valid token user handler :
  jwt_decode token = Ok (Some user) →
  route jwt_decode (Some token) handler = respond handler.
Proof.
  intros H. unfold route, oauth2_scheme, verify_token. simpl. now rewrite H.
Qed.






(** C3: with a valid token and a reachable store, [GET /games] and
    [GET /games/title/{title}] answer 200 with the rows under the key
    ["games"] when there are rows, and answer 500, not 404, when there are
    none: the 404 raised inside the [try] block is caught by its own
    [except Exception] and turned into a 500. *)
Theorem empty_result_answers_500 (token user : string) (db : store)
    (game_title : string) :
  jwt_decode token = Ok (Some user) →
  up db = true →
  let found :=
    List.filter (λ g, sql_like ("%" ++ game_title ++ "%") (g_title g)) (games db) in
  (games db = [] → status (GET_games jwt_decode str_of (Some token) db) = 500) ∧
  (games db ≠ [] →
   GET_games jwt_decode str_of (Some token) db =
   mkHttp 200 (GameRows "games" (games db))) ∧
  (found = [] →
   status (GET_games_title jwt_decode sql_like str_of (Some token) db game_title)
   = 500) ∧
  (found ≠ [] →
   GET_games_title jwt_decode sql_like str_of (Some token) db game_title =
   mkHttp 200 (GameRows "games" found)).
Proof.
  intros Htok Hup found. unfold GET_games, GET_games_title.
  rewrite !(route_valid _ _ _ Htok).
  unfold get_all_games, get_game_by_title, connect_to_db. rewrite Hup.
  cbn [rbind]. fold found.
  repeat split.
  - intros ->. reflexivity.
  - intros Hne. destruct (games db); [congruence | reflexivity].
  - intros ->. reflexivity.
  - intros Hne. destruct found; [congruence | reflexivity].
Qed.


End Store.

Lemma empty_result_answers_500_witness :
  sample_decode "valid-token" = Ok (Some "admin") ∧
  up empty_store = true ∧
  status (GET_games sample_decode sample_str (Some "valid-token") empty_store) = 500.
Proof.
  split; [reflexivity|]. split; [reflexivity|].
  apply (empty_result_answers_500 sample_decode like_ci sample_str
           "valid-token" "admin" empty_store "Hades");
    reflexivity.
Defined.

(** What the client of [GET /games] receives from an empty table. *)
Example get_games_empty :
  GET_games sample_decode sample_str (Some "valid-token") empty_store =
  mkHttp 500 (Detail "Erreur interne : 404: Aucun jeu trouvé.").
Proof. reflexivity. Qed.


(** A genre that only contains the name is not a match. *)
Example genre_substring_excluded :
  exact_genre_match "action" (mkGame 2 "Tunic" (Some "Action-Adventure, Indie")) = false ∧
  genre_listed "action" (mkGame 2 "Tunic" (Some "Action-Adventure, Indie")) = false.
Proof. split; reflexivity. Qed.

End ApiFacts.

(** ** Normalization: titles, ratings and synthetic ids *)

Module NormalizeFacts.
Import Py Net Spec Samples StrFacts Scraper.






Section Parser.
Variable select : string → string → result (list element).



(** A parsed row, read back: where its title, its release date and its id
    come from. *)
Lemma parse_item_inv cfg item r :
  parse_item select cfg item = Ok r →
  ∃ h,
    field_text select cfg (outer item) "title" = Ok (title r) ∧
    link_href select cfg (outer item) = Ok h ∧
    field_text select cfg (outer item) "release_date" = Ok (release_date r) ∧
    game_id r = Some (_hash_id [Some (name cfg); title r; h; release_date r]).
Proof.
  unfold parse_item.
  destruct (field_text select cfg (outer item) "title") as [t|]; [|discriminate].
  destruct (link_href select cfg (outer item)) as [h|]; [|discriminate].
  destruct (field_text select cfg (outer item) "platforms"); [|discriminate].
  destruct (field_text select cfg (outer item) "genres"); [|discriminate].
  destruct (field_text select cfg (outer item) "release_date") as [d|]; [|discriminate].
  destruct (field_text select cfg (outer item) "rating") as [rt|]; [|discriminate].
  cbn [rbind].
  destruct (rating_value rt); [|discriminate].
  cbn [rbind]. intros [= <-]. exists h. simpl. repeat split.
Qed.


(** C5: the synthetic id lies in [0, 2^63 - 1); the id of a parsed row
    is [_hash_id] of the descriptor name, the title, the link target and
    the release date, and of nothing else; equal inputs give equal ids. *)
Theorem hash_id_deterministic_and_bounded (cfg : SourceCfg) (item : element)
    (r : row) :
  parse_item select cfg item = Ok r →
  (∀ parts, 0 ≤ _hash_id parts < 2 ^ 63 - 1) ∧
  (∃ h, link_href select cfg (outer item) = Ok h ∧
        game_id r = Some (_hash_id [Some (name cfg); title r; h; release_date r])) ∧
  (∀ n t h d n' t' h' d',
     n = n' → t = t' → h = h' → d = d' →
     _hash_id [Some n; t; h; d] = _hash_id [Some n'; t'; h'; d']).
Proof.
  intros Hp. split; [|split].
  - intros parts. unfold _hash_id. apply Z.mod_pos_bound. lia.
  - apply parse_item_inv in Hp as (h & _ & Hh & _ & Hid). now exists h.
  - now intros n t h d n' t' h' d' -> -> -> ->.
Qed.
End Parser.



(** The scraper keeps a title of any length: here one of 300 characters. *)
Example scraped_title_not_clipped :
  ∃ r, parse_item long_select sample_cfg item_hades = Ok r ∧
       (String.length <$> title r) = Some 300%nat.
Proof. eexists. split; vm_compute; reflexivity. Qed.

Lemma hash_id_deterministic_and_bounded_witness :
  parse_item sample_select sample_cfg item_hades = Ok hades_row ∧
  (∀ parts, 0 ≤ _hash_id parts < 2 ^ 63 - 1) ∧
  (∃ h, link_href sample_select sample_cfg (outer item_hades) = Ok h ∧
        game_id hades_row =
        Some (_hash_id [Some (name sample_cfg); title hades_row; h;
                        release_date hades_row])) ∧
  (∀ n t h d n' t' h' d',
     n = n' → t = t' → h = h' → d = d' →
     _hash_id [Some n; t; h; d] = _hash_id [Some n'; t'; h'; d']).
Proof.
  split; [vm_compute; reflexivity|].
  apply (hash_id_deterministic_and_bounded sample_select sample_cfg item_hades
           hades_row).
  vm_compute. reflexivity.
Defined.

(** The id of a known input, as [hashlib] gives it. *)
Example hash_id_known_value :
  _hash_id [Some "metacritic"; Some "Halo"; None; Some "2001-11-15"]
  = 6065381637641092151.
Proof. vm_compute. reflexivity. Qed.

Example sha256_abc :
  Sha256.hexdigest "abc" =
  "ba7816bf8f01cfea414140de5dae2223b00361a396177a9cb410ff61f20015ad".
Proof. vm_compute. reflexivity. Qed.


End NormalizeFacts.

(** ** Scraping several sources *)

Module SourcesFacts.
Import Py Net Spec Samples Scraper.

Section Libraries.
Variable select : string → string → result (list element).
Variable urlparse : string → string * string.
Variable read_json : string → result (list raw_source).

Lemma outcomes_length cfgs limit :
  ∀ w, length (fst (outcomes select urlparse cfgs limit w)) = length cfgs.
Proof.
  induction cfgs as [|cfg rest IH]; intros w; [reflexivity|].
  cbn [outcomes]. destruct (scrape_source select urlparse cfg limit w) as [o w1].
  specialize (IH w1). destruct (outcomes select urlparse rest limit w1).
  simpl in *. now rewrite IH.
Qed.

(** The loop extends [rows] with the contribution of each descriptor in
    turn, whatever the outcome of the ones before. *)
Lemma scrape_each_outcomes cfgs limit :
  ∀ rows w,
    scrape_each select urlparse cfgs limit rows w =
    (Ok (rows ++ concat (map contribution
                           (fst (outcomes select urlparse cfgs limit w))))%list,
     snd (outcomes select urlparse cfgs limit w)).
Proof.
  induction cfgs as [|cfg rest IH]; intros rows w.
  - simpl. now rewrite app_nil_r.
  - cbn [scrape_each outcomes].
    destruct (scrape_source select urlparse cfg limit w) as [[part|e] w1];
      rewrite IH; destruct (outcomes select urlparse rest limit w1) as [os w2];
      simpl; [now rewrite app_assoc | reflexivity].
Qed.

(** C7: once the descriptors are loaded, [scrape_all_sources] scrapes
    every one of them and returns, in order, the rows of those whose
    scraping returned; a descriptor whose scraping raised contributes no
    row and stops nothing. *)
Theorem scrape_all_sources_skips_failures (config_path : string) (limit : Z)
    (cfgs : list SourceCfg) (w : world) :
  load_sources read_json config_path = Ok cfgs →
  let run := outcomes select urlparse cfgs limit w in
  length (fst run) = length cfgs ∧
  scrape_all_sources select urlparse read_json config_path limit w =
  (Ok (concat (map contribution (fst run))), snd run).
Proof.
  intros Hload run. split; [apply outcomes_length|].
  unfold scrape_all_sources, bind, lift. rewrite Hload.
  now rewrite scrape_each_outcomes.
Qed.
End Libraries.

Lemma scrape_all_sources_skips_failures_witness :
  load_sources sample_read_json "scrape_sources.json" = Ok [down_cfg; sample_cfg] ∧
  length (fst (outcomes sample_select sample_urlparse [down_cfg; sample_cfg] 50
                 (fresh sample_net))) = length [down_cfg; sample_cfg] ∧
  scrape_all_sources sample_select sample_urlparse sample_read_json
    "scrape_sources.json" 50 (fresh sample_net) =
  (Ok (concat (map contribution
         (fst (outcomes sample_select sample_urlparse [down_cfg; sample_cfg] 50
                 (fresh sample_net))))),
   snd (outcomes sample_select sample_urlparse [down_cfg; sample_cfg] 50
          (fresh sample_net))).
Proof.
  split; [vm_compute; reflexivity|].
  apply (scrape_all_sources_skips_failures sample_select sample_urlparse
           sample_read_json "scrape_sources.json" 50 [down_cfg; sample_cfg]
           (fresh sample_net)).
  vm_compute. reflexivity.
Defined.

(** The first site is down: its three attempts fail, it contributes
    nothing, and the rows of the second site are returned. *)
Example unreachable_source_is_skipped :
  fst (outcomes sample_select sample_urlparse [down_cfg; sample_cfg] 50
         (fresh sample_net)) =
    [Raise (RequestException 3); Ok [hades_row; untitled_row]] ∧
  fst (scrape_all_sources sample_select sample_urlparse sample_read_json
         "scrape_sources.json" 50 (fresh sample_net)) =
    Ok [hades_row; untitled_row].
Proof. split; vm_compute; reflexivity. Qed.

End SourcesFacts.

(** ** The store *)

Module StoreFacts.
Import Py Net Spec Samples Etl.

(** C10: [upsert_rows] on an empty list returns 0 and leaves the world as
    it is: nothing is added to the trace (no connection, no transaction,
    no statement) and the tables are untouched, whether or not the store
    can be reached. *)
Theorem upsert_rows_empty (table : string) (w : world) :
  upsert_rows table [] w = (Ok 0, w).
Proof. reflexivity. Qed.

(** With one row the transaction shows in the trace. *)
Example upsert_rows_one :
  let '(res, w') := upsert_rows "games" [named_row] sample_world in
  res = Ok 1 ∧
  trace w' = [EvBegin; EvUpsert "games" [named_row]; EvCommit] ∧
  tables w' !! "games" = Some {[8 := named_row]}.
Proof. repeat split; vm_compute; reflexivity. Qed.

(** A row without title makes the statement fail and the batch roll
    back. *)
Example upsert_rows_rolls_back :
  let '(res, w') := upsert_rows "games" [named_row; untitled_row] sample_world in
  res = Raise (DBError "Column 'title' cannot be null") ∧
  tables w' = tables sample_world.
Proof. split; vm_compute; reflexivity. Qed.

End StoreFacts.

(** ** Upserts and the table *)

Module UpsertFacts.
Import Py Net Spec Notions Samples Inputs DictFacts DedupFacts Etl.
Local Open Scope list_scope.

Lemma upsert_one_storable t r t' :
  upsert_one t r = Ok t' →
  storable r = true ∧ ∃ k, game_id r = Some k ∧ t' = <[k := r]> t.
Proof.
  unfold upsert_one, storable.
  destruct (game_id r) as [k|]; [|discriminate].
  destruct (title r); [|discriminate].
  intros [= <-]. split; [reflexivity|]. now exists k.
Qed.

Lemma upsert_one_unstorable t r :
  storable r = false → ∃ m, upsert_one t r = Raise (DBError m).
Proof.
  unfold upsert_one, storable.
  destruct (game_id r); [destruct (title r); [discriminate|]|]; intros _; eexists; reflexivity.
Qed.

Lemma upsert_many_storable rows :
  ∀ t t', upsert_many t rows = Ok t' → forallb storable rows = true.
Proof.
  induction rows as [|r rows IH]; intros t t' H; [reflexivity|].
  cbn [upsert_many] in H. destruct (upsert_one t r) as [t1|] eqn:E; [|discriminate].
  apply upsert_one_storable in E as [Hs _]. cbn [rbind] in H.
  cbn [forallb]. rewrite Hs. exact (IH _ _ H).
Qed.

Lemma upsert_many_accepts rows :
  ∀ t, forallb storable rows = true → ∃ t', upsert_many t rows = Ok t'.
Proof.
  induction rows as [|r rows IH]; intros t H; [now exists t|].
  cbn [forallb] in H. apply andb_true_iff in H as [Hr Hrest].
  cbn [upsert_many]. unfold upsert_one, storable in *.
  destruct (game_id r) as [k|]; [|discriminate].
  destruct (title r); [|discriminate].
  cbn [rbind]. apply IH, Hrest.
Qed.

Lemma upsert_many_rejects rows :
  ∀ t, forallb storable rows = false → ∃ m, upsert_many t rows = Raise (DBError m).
Proof.
  induction rows as [|r rows IH]; intros t H; [discriminate|].
  cbn [forallb] in H. cbn [upsert_many].
  destruct (storable r) eqn:Hr.
  - destruct (upsert_one t r) as [t1|e] eqn:E.
    + cbn [rbind]. apply IH. exact H.
    + unfold upsert_one, storable in *.
      destruct (game_id r); [destruct (title r)|]; discriminate.
  - destruct (upsert_one_unstorable t r Hr) as [m ->]. now exists m.
Qed.

(** After a batch, a key holds the last row of the batch with that key,
    or what it held before when the batch has none. *)
Lemma upsert_many_lookup rows :
  ∀ t t', upsert_many t rows = Ok t' → ∀ k, t' !! k = after_batch t rows k.
Proof.
  unfold after_batch, last_with_id.
  induction rows as [|r rows IH]; intros t t' H k.
  - injection H as <-. reflexivity.
  - cbn [upsert_many] in H. destruct (upsert_one t r) as [t1|] eqn:E; [|discriminate].
    apply upsert_one_storable in E as [_ [k0 [Hk ->]]]. cbn [rbind] in H.
    rewrite (IH _ _ H k). cbn [rev]. rewrite find_snoc.
    destruct (List.find (has_id k) (rev rows)); [reflexivity|].
    unfold has_id. rewrite Hk.
    destruct (k0 =? k) eqn:Ek.
    + apply Z.eqb_eq in Ek as ->. apply lookup_insert_eq.
    + apply Z.eqb_neq in Ek. now apply lookup_insert_ne.
Qed.

(** The three events of a transaction around one statement. *)
Lemma upsert_rows_cons table r rest w :
  upsert_rows table (r :: rest) w =
  if negb (db_up w) then (Raise (DBError "cannot connect"), w)
  else
    let begun := (trace w ++ [EvBegin]) ++ [EvUpsert table (r :: rest)] in
    match tables w !! table with
    | None =>
        (Raise (DBError "table does not exist"),
         mkWorld (net w) (requests w) (begun ++ [EvRollback]) (db_up w) (tables w))
    | Some t =>
        match upsert_many t (r :: rest) with
        | Ok t' =>
            (Ok (Z.of_nat (length (r :: rest))),
             mkWorld (net w) (requests w) (begun ++ [EvCommit]) (db_up w)
                     (<[table := t']> (tables w)))
        | Raise e =>
            (Raise e,
             mkWorld (net w) (requests w) (begun ++ [EvRollback]) (db_up w) (tables w))
        end
    end.
Proof.
  unfold upsert_rows, transaction, bind at 1.
  destruct (negb (db_up w)); [reflexivity|].
  unfold execute_upsert, bind, log, set_tables, ret, raise. cbn [tables trace net requests db_up].
  destruct (tables w !! table) as [t|]; [|reflexivity].
  destruct (upsert_many t (r :: rest)); reflexivity.
Qed.






(** X3: sending the same batch a second time succeeds again and changes
    no table. *)
Theorem upsert_rows_idempotent (table : string) (rows : list row)
    (w w1 : world) (n : Z) :
  upsert_rows table rows w = (Ok n, w1) →
  ∃ w2, upsert_rows table rows w1 = (Ok n, w2) ∧ tables w2 = tables w1.
Proof.
  destruct rows as [|r rest].
  - intros [= <- <-]. now exists w.
  - rewrite upsert_rows_cons.
    destruct (db_up w) eqn:Hup; cbn [negb]; [|discriminate].
    destruct (tables w !! table) as [t|] eqn:Ht; [|discriminate].
    destruct (upsert_many t (r :: rest)) as [t'|] eqn:Hm; [|discriminate].
    intros [= <- <-].
    destruct (upsert_many_accepts (r :: rest) t' (upsert_many_storable _ _ _ Hm))
      as [t'' Hm'].
    assert (Heq : t'' = t').
    { apply map_eq. intros k.
      rewrite (upsert_many_lookup _ _ _ Hm' k). unfold after_batch at 1.
      destruct (last_with_id k (r :: rest)) eqn:El; [|reflexivity].
      rewrite (upsert_many_lookup _ _ _ Hm k). unfold after_batch. now rewrite El. }
    subst t''. rewrite upsert_rows_cons. cbn [db_up tables negb].
    rewrite lookup_insert_eq, Hm'. eexists. split; [reflexivity|].
    cbn [tables]. apply insert_insert_eq.
Qed.

Lemma upsert_rows_idempotent_witness :
  upsert_rows "games" [named_row; hades_row] sample_world = (Ok 2, stored_world) ∧
  ∃ w2, upsert_rows "games" [named_row; hades_row] stored_world = (Ok 2, w2) ∧
        tables w2 = tables stored_world.
Proof.
  split; [vm_compute; reflexivity|].
  apply (upsert_rows_idempotent "games" [named_row; hades_row] sample_world
           stored_world 2).
  vm_compute. reflexivity.
Defined.

Lemma ensure_table_eq table w :
  ensure_table table w =
  if negb (db_up w) then (Raise (DBError "cannot connect"), w)
  else
    (Ok tt,
     mkWorld (net w) (requests w)
       (((trace w ++ [EvBegin]) ++ [EvCreateTable table]) ++ [EvCommit]) (db_up w)
       (match tables w !! table with
        | Some _ => tables w
        | None => <[table := ∅]> (tables w)
        end)).
Proof.
  unfold ensure_table, transaction, bind at 1.
  destruct (negb (db_up w)); [reflexivity|].
  unfold execute_ddl, bind, log, set_tables, ret. cbn [tables trace net requests db_up].
  destruct (tables w !! table); reflexivity.
Qed.

(** X4: on a reachable store [ensure_table] succeeds in one transaction;
    afterwards the table exists, with the rows it had if it existed, the
    other tables are untouched, and a second call changes no table. *)
Theorem ensure_table_creates_once (table : string) (w : world) :
  db_up w = true →
  ∃ w',
    ensure_table table w = (Ok tt, w') ∧
    trace w' = trace w ++ [EvBegin; EvCreateTable table; EvCommit] ∧
    tables w' !! table = Some (default ∅ (tables w !! table)) ∧
    (∀ other, other ≠ table → tables w' !! other = tables w !! other) ∧
    ∃ w'', ensure_table table w' = (Ok tt, w'') ∧ tables w'' = tables w'.
Proof.
  intros Hup. rewrite ensure_table_eq, Hup. cbn [negb].
  eexists. split; [reflexivity|]. cbn [trace tables].
  split; [now rewrite <- !app_assoc|].
  assert (Hthere : ∀ (m : gmap string (gmap Z row)),
            m = match tables w !! table with
                | Some _ => tables w
                | None => <[table := ∅]> (tables w)
                end →
            m !! table = Some (default ∅ (tables w !! table))).
  { intros m ->. destruct (tables w !! table) as [t|] eqn:Ht; [exact Ht|].
    apply lookup_insert_eq. }
  split; [now apply Hthere|]. split.
  - intros other Hne. destruct (tables w !! table); [reflexivity|].
    now apply lookup_insert_ne.
  - rewrite ensure_table_eq. cbn [db_up tables negb].
    eexists. split; [reflexivity|]. cbn [tables].
    now rewrite (Hthere _ eq_refl).
Qed.

Lemma ensure_table_creates_once_witness :
  db_up (fresh sample_net) = true ∧
  ∃ w',
    ensure_table "games" (fresh sample_net) = (Ok tt, w') ∧
    trace w' = trace (fresh sample_net) ++ [EvBegin; EvCreateTable "games"; EvCommit] ∧
    tables w' !! "games" = Some (default ∅ (tables (fresh sample_net) !! "games")) ∧
    (∀ other, other ≠ "games" →
              tables w' !! other = tables (fresh sample_net) !! other) ∧
    ∃ w'', ensure_table "games" w' = (Ok tt, w'') ∧ tables w'' = tables w'.
Proof.
  split; [reflexivity|].
  apply (ensure_table_creates_once "games" (fresh sample_net)). reflexivity.
Defined.





End UpsertFacts.

(** ** More on the catalog fetcher *)

Module FetchFacts.
Import Py Net Spec Notions Samples Inputs NetFacts NormalizeFacts Etl.
Local Open Scope list_scope.

(** One pass through the [try] block, by what the catalog answers. *)
Lemma fetch_attempt_eq limit w :
  fetch_attempt limit w =
  match net w (requests w) RAWG_URL with
  | Fails k => (Raise (RequestException k), after_get RAWG_URL w)
  | Responds resp =>
      if status_code resp =? 429 then
        match Num.py_int (default "10"%string (retry_after resp)) with
        | Ok wait =>
            if wait <? 0
            then (Raise (ValueError "sleep length must be non-negative"),
                  after_get RAWG_URL w)
            else (Ok Continue, after_sleep wait (after_get RAWG_URL w))
        | Raise e => (Raise e, after_get RAWG_URL w)
        end
      else
        match raise_for_status resp with
        | Raise e => (Raise e, after_get RAWG_URL w)
        | Ok _ =>
            match json resp with
            | None => (Raise (ValueError "response body is not JSON"),
                       after_get RAWG_URL w)
            | Some data =>
                match normalize_all (list_slice_to limit (default [] data)) with
                | Ok normalized => (Ok (Return normalized), after_get RAWG_URL w)
                | Raise e => (Raise e, after_get RAWG_URL w)
                end
            end
        end
  end.
Proof.
  unfold fetch_attempt, bind. rewrite requests_get_eq.
  destruct (net w (requests w) RAWG_URL) as [k|r]; [reflexivity|].
  destruct (status_code r =? 429).
  - unfold lift. destruct (Num.py_int _) as [wait|e]; [|reflexivity].
    unfold sleep. destruct (wait <? 0); reflexivity.
  - unfold lift. destruct (raise_for_status r); [|reflexivity].
    destruct (json r); [|reflexivity].
    destruct (normalize_all _); reflexivity.
Qed.

(** How an attempt ends depends on the answer to its request only. *)
Lemma fetch_attempt_same limit w1 w2 :
  net w1 = net w2 → requests w1 = requests w2 →
  fst (fetch_attempt limit w1) = fst (fetch_attempt limit w2).
Proof.
  intros Hn Hr. rewrite !fetch_attempt_eq, Hn, Hr.
  destruct (net w2 (requests w2) RAWG_URL) as [k|r]; [reflexivity|].
  destruct (status_code r =? 429).
  - destruct (Num.py_int _) as [wait|e]; [|reflexivity]. now destruct (wait <? 0).
  - destruct (raise_for_status r); [|reflexivity].
    destruct (json r); [|reflexivity]. now destruct (normalize_all _).
Qed.

Lemma fetch_attempt_raise limit w e w1 :
  fetch_attempt limit w = (Raise e, w1) → w1 = after_get RAWG_URL w.
Proof.
  rewrite fetch_attempt_eq.
  destruct (net w (requests w) RAWG_URL) as [k|r]; [now intros [= _ <-]|].
  destruct (status_code r =? 429).
  - destruct (Num.py_int _) as [wait|e']; [|now intros [= _ <-]].
    destruct (wait <? 0); [now intros [= _ <-] | discriminate].
  - destruct (raise_for_status r); [|now intros [= _ <-]].
    destruct (json r); [|now intros [= _ <-]].
    destruct (normalize_all _); [discriminate | now intros [= _ <-]].
Qed.

Lemma fetch_attempt_return limit w rows w1 :
  fetch_attempt limit w = (Ok (Return rows), w1) →
  w1 = after_get RAWG_URL w ∧
  ∃ results, normalize_all (list_slice_to limit results) = Ok rows.
Proof.
  rewrite fetch_attempt_eq.
  destruct (net w (requests w) RAWG_URL) as [k|r]; [discriminate|].
  destruct (status_code r =? 429).
  - destruct (Num.py_int _) as [wait|e']; [|discriminate].
    destruct (wait <? 0); discriminate.
  - destruct (raise_for_status r); [|discriminate].
    destruct (json r) as [data|]; [|discriminate].
    destruct (normalize_all _) as [n|] eqn:E; [|discriminate].
    intros [= <- <-]. split; [reflexivity|]. now exists (default [] data).
Qed.

Lemma fetch_attempt_continue limit w w1 :
  fetch_attempt limit w = (Ok Continue, w1) →
  ∃ r wait, net w (requests w) RAWG_URL = Responds r ∧ status_code r = 429 ∧
            0 ≤ wait ∧ w1 = after_sleep wait (after_get RAWG_URL w).
Proof.
  rewrite fetch_attempt_eq.
  destruct (net w (requests w) RAWG_URL) as [k|r]; [discriminate|].
  destruct (status_code r =? 429) eqn:Es.
  - destruct (Num.py_int _) as [wait|e']; [|discriminate].
    destruct (wait <? 0) eqn:Ew; [discriminate|].
    intros [= <-]. exists r, wait. apply Z.eqb_eq in Es. repeat split; [exact Es | lia].
  - destruct (raise_for_status r); [|discriminate].
    destruct (json r); [|discriminate].
    destruct (normalize_all _); discriminate.
Qed.

(** The loop, started anywhere: it only adds requests for the catalog and
    sleeps to the trace, and touches nothing else. *)
Lemma fetch_loop_frame limit attempts :
  ∀ last w res w',
    Forall (λ a, 0 ≤ a) attempts →
    fetch_loop limit attempts last w = (res, w') →
    net w' = net w ∧ db_up w' = db_up w ∧ tables w' = tables w ∧
    (requests w ≤ requests w' ≤ requests w + length attempts)%nat ∧
    ∃ evs, trace w' = trace w ++ evs ∧ Forall (net_event RAWG_URL) evs.
Proof.
  induction attempts as [|a rest IH]; intros last w res w' Hpos Hrun.
  - cbn [fetch_loop] in Hrun.
    assert (w' = w) as -> by (destruct last; now injection Hrun).
    split; [reflexivity|]. split; [reflexivity|]. split; [reflexivity|].
    split; [lia|]. exists []. split; [now rewrite app_nil_r | constructor].
  - apply Forall_cons in Hpos as [Ha Hrest]. cbn [fetch_loop] in Hrun.
    destruct (fetch_attempt limit w) as [[[|rows]|e] w1] eqn:Ea.
    + apply fetch_attempt_continue in Ea as (r & wait & _ & _ & Hw & ->).
      apply IH in Hrun as (Hn & Hd & Ht & Hr & evs & He & Hf); [|exact Hrest].
      cbn [after_sleep after_get net db_up tables requests trace] in *.
      split; [exact Hn|]. split; [exact Hd|]. split; [exact Ht|].
      split; [cbn [length]; lia|].
      exists (EvGet RAWG_URL :: EvSleep wait :: evs). split.
      * rewrite He. now rewrite <- !app_assoc.
      * constructor; [now left|]. constructor; [right; now exists wait | exact Hf].
    + apply fetch_attempt_return in Ea as [-> _]. injection Hrun as <- <-.
      cbn [after_get net db_up tables requests trace length].
      split; [reflexivity|]. split; [reflexivity|]. split; [reflexivity|].
      split; [lia|]. exists [EvGet RAWG_URL]. split; [reflexivity|].
      constructor; [now left | constructor].
    + apply fetch_attempt_raise in Ea as ->.
      unfold bind in Hrun. rewrite sleep_eq in Hrun by lia.
      apply IH in Hrun as (Hn & Hd & Ht & Hr & evs & He & Hf); [|exact Hrest].
      cbn [after_sleep after_get net db_up tables requests trace] in *.
      split; [exact Hn|]. split; [exact Hd|]. split; [exact Ht|].
      split; [cbn [length]; lia|].
      exists (EvGet RAWG_URL :: EvSleep (2 * a) :: evs). split.
      * rewrite He. now rewrite <- !app_assoc.
      * constructor; [now left|].
        constructor; [right; exists (2 * a); split; [lia | reflexivity] | exact Hf].
Qed.

(** X6: whatever the catalog answers, [rawg_fetch_latest] makes at most
    [retries] requests, all for the catalog URL, adds only those requests
    and sleeps to the trace, and leaves the store alone. *)
Theorem rawg_fetch_touches_only_the_network (api_key : string)
    (limit timeout retries : Z) (w : world) :
  let '(res, w') := rawg_fetch_latest api_key limit timeout retries w in
  net w' = net w ∧ db_up w' = db_up w ∧ tables w' = tables w ∧
  (requests w ≤ requests w' ≤ requests w + Z.to_nat retries)%nat ∧
  ∃ evs, trace w' = trace w ++ evs ∧ Forall (net_event RAWG_URL) evs.
Proof.
  destruct (rawg_fetch_latest api_key limit timeout retries w) as [res w'] eqn:Hrun.
  unfold rawg_fetch_latest in Hrun.
  destruct (negb (str_truthy api_key)).
  - injection Hrun as <- <-.
    split; [reflexivity|]. split; [reflexivity|]. split; [reflexivity|].
    split; [lia|]. exists []. split; [now rewrite app_nil_r | constructor].
  - apply fetch_loop_frame in Hrun; [|apply range_nonneg; lia].
    rewrite range_length in Hrun.
    now replace (retries + 1 - 1) with retries in Hrun by lia.
Qed.

(** When no answer is a 429, the loop ends with the outcome of its last
    request: the rows it returned, or its exception once the attempts are
    used up. *)
Lemma fetch_loop_last_attempt limit attempts :
  ∀ last w res w',
    Forall (λ a, 0 ≤ a) attempts →
    (∀ n r, net w n RAWG_URL = Responds r → status_code r ≠ 429) →
    fetch_loop limit attempts last w = (res, w') →
    match res with
    | Ok rows =>
        (requests w < requests w' ≤ requests w + length attempts)%nat ∧
        fst (fetch_attempt limit (at_request w (requests w' - 1))) = Ok (Return rows)
    | Raise e =>
        requests w' = (requests w + length attempts)%nat ∧
        match attempts with
        | [] => last = Some e ∨ last = None ∧ e = AssertionError
        | _ => fst (fetch_attempt limit (at_request w (requests w' - 1))) = Raise e
        end
    end.
Proof.
  induction attempts as [|a rest IH]; intros last w res w' Hpos Hno Hrun.
  - cbn [fetch_loop] in Hrun. destruct last as [e|]; injection Hrun as <- <-;
      (split; [simpl; lia|]); auto.
  - apply Forall_cons in Hpos as [Ha Hrest]. cbn [fetch_loop] in Hrun.
    assert (Hhere : fst (fetch_attempt limit (at_request w (requests w))) =
                    fst (fetch_attempt limit w))
      by (apply fetch_attempt_same; reflexivity).
    destruct (fetch_attempt limit w) as [[[|rows]|e] w1] eqn:Ea.
    + apply fetch_attempt_continue in Ea as (r & wait & Hr & Hs & _).
      now destruct (Hno _ _ Hr).
    + apply fetch_attempt_return in Ea as [-> _]. injection Hrun as <- <-.
      cbn [after_get requests length]. split; [lia|].
      replace (S (requests w) - 1)%nat with (requests w) by lia. exact Hhere.
    + apply fetch_attempt_raise in Ea as ->.
      unfold bind in Hrun. rewrite sleep_eq in Hrun by lia.
      apply IH in Hrun; [|exact Hrest|exact Hno].
      assert (Hconv : ∀ n,
                fst (fetch_attempt limit
                       (at_request (after_sleep (2 * a) (after_get RAWG_URL w)) n)) =
                fst (fetch_attempt limit (at_request w n)))
        by (intros n; apply fetch_attempt_same; reflexivity).
      rewrite !Hconv in Hrun.
      cbn [after_sleep after_get requests net] in Hrun.
      destruct res as [rows|e'].
      * destruct Hrun as [Hr Hf]. split; [cbn [length]; lia|]. exact Hf.
      * destruct Hrun as [Hr Hf]. split; [cbn [length]; lia|].
        destruct rest as [|b rest'].
        -- destruct Hf as [[= <-]|[Habs _]]; [|discriminate].
           cbn [length] in Hr.
           replace (requests w' - 1)%nat with (requests w) by lia. exact Hhere.
        -- exact Hf.
Qed.

(** X7: with a key, at least one attempt allowed and a catalog that never
    answers 429, [rawg_fetch_latest] returns the rows of its last request,
    or, after exactly [retries] requests, raises the exception of the last
    one. *)
Theorem rawg_last_attempt_decides (api_key : string) (limit timeout retries : Z)
    (w : world) :
  api_key ≠ EmptyString →
  1 ≤ retries →
  (∀ n r, net w n RAWG_URL = Responds r → status_code r ≠ 429) →
  let '(res, w') := rawg_fetch_latest api_key limit timeout retries w in
  match res with
  | Ok rows =>
      (requests w < requests w' ≤ requests w + Z.to_nat retries)%nat ∧
      fst (fetch_attempt limit (at_request w (requests w' - 1))) = Ok (Return rows)
  | Raise e =>
      requests w' = (requests w + Z.to_nat retries)%nat ∧
      fst (fetch_attempt limit (at_request w (requests w' - 1))) = Raise e
  end.
Proof.
  intros Hkey Hr Hno.
  destruct (rawg_fetch_latest api_key limit timeout retries w) as [res w'] eqn:Hrun.
  unfold rawg_fetch_latest in Hrun.
  destruct api_key; [congruence|]. cbn [str_truthy negb] in Hrun.
  pose proof (range_length 1 (retries + 1)) as Hlen.
  replace (retries + 1 - 1) with retries in Hlen by lia.
  apply fetch_loop_last_attempt in Hrun; [|apply range_nonneg; lia|exact Hno].
  rewrite Hlen in Hrun. destruct res as [rows|e]; [exact Hrun|].
  destruct Hrun as [Hn Hf]. split; [exact Hn|].
  destruct (range 1 (retries + 1)); [simpl in Hlen; lia | exact Hf].
Qed.

Lemma rawg_last_attempt_decides_witness :
  "key"%string ≠ EmptyString ∧
  1 ≤ 3 ∧
  (∀ n r, net (fresh flaky_catalog) n RAWG_URL = Responds r → status_code r ≠ 429) ∧
  let '(res, w') := rawg_fetch_latest "key" 50 20 3 (fresh flaky_catalog) in
  match res with
  | Ok rows =>
      (requests (fresh flaky_catalog) < requests w'
       ≤ requests (fresh flaky_catalog) + Z.to_nat 3)%nat ∧
      fst (fetch_attempt 50 (at_request (fresh flaky_catalog) (requests w' - 1)))
      = Ok (Return rows)
  | Raise e =>
      requests w' = (requests (fresh flaky_catalog) + Z.to_nat 3)%nat ∧
      fst (fetch_attempt 50 (at_request (fresh flaky_catalog) (requests w' - 1)))
      = Raise e
  end.
Proof.
  assert (Hno : ∀ n r, net (fresh flaky_catalog) n RAWG_URL = Responds r →
                       status_code r ≠ 429).
  { intros n r. cbn [fresh net]. unfold flaky_catalog.
    destruct (n =? 0)%nat; [|destruct (n =? 1)%nat]; intros [= <-]; discriminate. }
  split; [discriminate|]. split; [lia|]. split; [exact Hno|].
  apply (rawg_last_attempt_decides "key" 50 20 3 (fresh flaky_catalog)).
  - discriminate.
  - lia.
  - exact Hno.
Defined.

(** The flaky catalog: two failures, slept on for 2 and 4 seconds, then
    the two entries. *)
Example rawg_third_attempt :
  let '(res, w') := rawg_fetch_latest "key" 50 20 3 (fresh flaky_catalog) in
  res = Ok [named_row; nameless_row] ∧
  trace w' = [EvGet RAWG_URL; EvSleep 2; EvGet RAWG_URL; EvSleep 4; EvGet RAWG_URL].
Proof. split; vm_compute; reflexivity. Qed.

Lemma fetch_loop_all_raise limit attempts :
  ∀ last w,
    Forall (λ a, 0 ≤ a) attempts →
    (∀ n, ∃ e, fst (fetch_attempt limit (at_request w n)) = Raise e) →
    trace (snd (fetch_loop limit attempts last w)) =
      trace w ++ backoff RAWG_URL (Z.mul 2) attempts ∧
    requests (snd (fetch_loop limit attempts last w)) =
      (requests w + length attempts)%nat ∧
    ∃ e, fst (fetch_loop limit attempts last w) = Raise e.
Proof.
  induction attempts as [|a rest IH]; intros last w Hpos Hall.
  - cbn [fetch_loop backoff flat_map length]. rewrite app_nil_r.
    destruct last as [e|]; (split; [reflexivity|]); (split; [simpl; lia|]);
      eexists; reflexivity.
  - apply Forall_cons in Hpos as [Ha Hrest]. cbn [fetch_loop].
    destruct (Hall (requests w)) as [e He].
    rewrite (fetch_attempt_same limit (at_request w (requests w)) w eq_refl eq_refl) in He.
    destruct (fetch_attempt limit w) as [res w1] eqn:Ea. cbn [fst] in He. subst res.
    apply fetch_attempt_raise in Ea as ->.
    unfold bind. rewrite sleep_eq by lia.
    destruct (IH (Some e) (after_sleep (2 * a) (after_get RAWG_URL w)) Hrest)
      as (Ht & Hr & Hx).
    { intros n. destruct (Hall n) as [e' He']. exists e'. rewrite <- He'.
      apply fetch_attempt_same; reflexivity. }
    rewrite Ht, Hr. cbn [after_sleep after_get trace requests backoff flat_map length].
    split; [now rewrite <- !app_assoc|]. split; [lia | exact Hx].
Qed.

(** X8: when every attempt ends in an exception (a failed request, an
    error status, a body that cannot be used, or a 429 whose [Retry-After]
    is not a non-negative integer), [rawg_fetch_latest] makes exactly
    [retries] requests, sleeps [2 * i] seconds after the [i]-th, and
    raises. *)
Theorem rawg_backoff_is_linear (api_key : string) (limit timeout retries : Z)
    (w : world) :
  api_key ≠ EmptyString →
  (∀ n, ∃ e, fst (fetch_attempt limit (at_request w n)) = Raise e) →
  let '(res, w') := rawg_fetch_latest api_key limit timeout retries w in
  trace w' = trace w ++ backoff RAWG_URL (Z.mul 2) (range 1 (retries + 1)) ∧
  requests w' = (requests w + Z.to_nat retries)%nat ∧
  ∃ e, res = Raise e.
Proof.
  intros Hkey Hall.
  destruct (rawg_fetch_latest api_key limit timeout retries w) as [res w'] eqn:Hrun.
  unfold rawg_fetch_latest in Hrun.
  destruct api_key; [congruence|]. cbn [str_truthy negb] in Hrun.
  destruct (fetch_loop_all_raise limit (range 1 (retries + 1)) None w)
    as (Ht & Hr & Hx); [apply range_nonneg; lia | exact Hall |].
  rewrite Hrun in Ht, Hr, Hx. cbn [fst snd] in *.
  rewrite range_length in Hr. replace (retries + 1 - 1) with retries in Hr by lia.
  auto.
Qed.

Lemma rawg_backoff_is_linear_witness :
  "key"%string ≠ EmptyString ∧
  (∀ n, ∃ e, fst (fetch_attempt 50 (at_request (fresh dated_429) n)) = Raise e) ∧
  let '(res, w') := rawg_fetch_latest "key" 50 20 3 (fresh dated_429) in
  trace w' = trace (fresh dated_429) ++ backoff RAWG_URL (Z.mul 2) (range 1 (3 + 1)) ∧
  requests w' = (requests (fresh dated_429) + Z.to_nat 3)%nat ∧
  ∃ e, res = Raise e.
Proof.
  assert (Hall : ∀ n, ∃ e, fst (fetch_attempt 50 (at_request (fresh dated_429) n))
                           = Raise e).
  { intros n. eexists. vm_compute. reflexivity. }
  split; [discriminate|]. split; [exact Hall|].
  apply (rawg_backoff_is_linear "key" 50 20 3 (fresh dated_429));
    [discriminate | exact Hall].
Defined.

(** A rate limit announced with a date: the header is not an integer, the
    429 is handled as a failure and the [ValueError] of [int] is what is
    raised in the end. *)
Example rawg_dated_retry_after :
  let '(res, w') := rawg_fetch_latest "key" 50 20 2 (fresh dated_429) in
  res = Raise (ValueError "invalid literal for int() with base 10") ∧
  trace w' = [EvGet RAWG_URL; EvSleep 2; EvGet RAWG_URL; EvSleep 4].
Proof. split; vm_compute; reflexivity. Qed.









(** X10: without a key [rawg_fetch_latest] raises [RuntimeError], and with
    a key but no attempt allowed it fails its assertion; in both cases
    nothing is requested and the world is untouched. *)
Theorem rawg_fetch_without_attempt (api_key : string) (limit timeout retries : Z)
    (w : world) :
  api_key = EmptyString ∨ retries ≤ 0 →
  ∃ e,
    rawg_fetch_latest api_key limit timeout retries w = (Raise e, w) ∧
    (api_key = EmptyString →
     e = RuntimeError "RAWG_API_KEY manquant. Renseignez-le dans .env") ∧
    (api_key ≠ EmptyString → e = AssertionError).
Proof.
  intros H. unfold rawg_fetch_latest. destruct api_key as [|c key].
  - eexists. split; [reflexivity|]. split; [reflexivity | congruence].
  - destruct H as [H|H]; [discriminate|]. cbn [str_truthy negb].
    assert (Hr : range 1 (retries + 1) = []).
    { unfold range. replace (Z.to_nat (retries + 1 - 1)) with 0%nat by lia. reflexivity. }
    rewrite Hr. eexists. split; [reflexivity|]. split; [discriminate | reflexivity].
Qed.

Lemma rawg_fetch_without_attempt_witness :
  ("key"%string = EmptyString ∨ 0 ≤ 0) ∧
  ∃ e,
    rawg_fetch_latest "key" 50 20 0 (fresh flaky_catalog) =
      (Raise e, fresh flaky_catalog) ∧
    ("key"%string = EmptyString →
     e = RuntimeError "RAWG_API_KEY manquant. Renseignez-le dans .env") ∧
    ("key"%string ≠ EmptyString → e = AssertionError).
Proof.
  split; [right; lia|].
  apply (rawg_fetch_without_attempt "key" 50 20 0 (fresh flaky_catalog)).
  right. lia.
Defined.

End FetchFacts.

(** ** More on the scraper's requests *)

Module GetFacts.
Import Py Net Spec Notions Samples Inputs NetFacts Scraper.
Local Open Scope list_scope.

Lemma get_attempt_world url w res w1 :
  get_attempt url w = (res, w1) → w1 = after_get url w.
Proof.
  rewrite get_attempt_eq.
  destruct (net w (requests w) url) as [k|r]; [now intros [= _ <-]|].
  destruct (raise_for_status r); now intros [= _ <-].
Qed.

Lemma firstn_seq_le (k : nat) :
  ∀ start len, (k ≤ len)%nat → firstn k (seq start len) = seq start k.
Proof.
  induction k as [|k IH]; intros start len Hk; [reflexivity|].
  destruct len as [|len]; [lia|]. cbn [seq firstn]. f_equal. apply IH. lia.
Qed.

Lemma firstn_range lo hi (k : nat) :
  (k ≤ Z.to_nat (hi - lo))%nat → firstn k (range lo hi) = range lo (lo + Z.of_nat k).
Proof.
  intros Hk. unfold range. rewrite firstn_map, firstn_seq_le by exact Hk.
  now replace (Z.to_nat (lo + Z.of_nat k - lo)) with k by lia.
Qed.

(** The trace of the loop of [_get]: a request and a sleep for each failed
    attempt, then the request that passed, if one did. *)
Lemma get_loop_trace url attempts :
  ∀ last w res w',
    Forall (λ a, 0 ≤ a) attempts →
    get_loop url attempts last w = (res, w') →
    db_up w' = db_up w ∧ tables w' = tables w ∧
    match res with
    | Ok (Some _) =>
        ∃ failed, requests w' = S (requests w + failed) ∧
                  (failed < length attempts)%nat ∧
                  trace w' = trace w ++ backoff url (λ i, i) (firstn failed attempts)
                                     ++ [EvGet url]
    | _ =>
        requests w' = (requests w + length attempts)%nat ∧
        trace w' = trace w ++ backoff url (λ i, i) attempts
    end.
Proof.
  induction attempts as [|a rest IH]; intros last w res w' Hpos Hrun.
  - cbn [get_loop] in Hrun. cbn [backoff flat_map length]. rewrite app_nil_r.
    destruct last as [e|]; injection Hrun as <- <-;
      (split; [reflexivity|]); (split; [reflexivity|]); split; (lia || reflexivity).
  - apply Forall_cons in Hpos as [Ha Hrest]. cbn [get_loop] in Hrun.
    destruct (get_attempt url w) as [[resp|e] w1] eqn:Ea;
      apply get_attempt_world in Ea as ->.
    + injection Hrun as <- <-. split; [reflexivity|]. split; [reflexivity|].
      exists 0%nat. cbn [after_get requests trace firstn backoff flat_map length app].
      split; [lia|]. split; [lia | reflexivity].
    + unfold bind in Hrun. rewrite sleep_eq in Hrun by exact Ha.
      apply IH in Hrun as (Hd & Ht & Hres); [|exact Hrest].
      cbn [after_sleep after_get db_up tables requests trace] in *.
      split; [exact Hd|]. split; [exact Ht|].
      destruct res as [[resp|]|e'].
      * destruct Hres as (failed & Hr & Hl & Htr). exists (S failed).
        cbn [firstn backoff flat_map length]. split; [lia|]. split; [lia|].
        rewrite Htr. unfold backoff. now rewrite <- !app_assoc.
      * destruct Hres as [Hr Htr]. cbn [backoff flat_map length]. split; [lia|].
        rewrite Htr. unfold backoff. now rewrite <- !app_assoc.
      * destruct Hres as [Hr Htr]. cbn [backoff flat_map length]. split; [lia|].
        rewrite Htr. unfold backoff. now rewrite <- !app_assoc.
Qed.

(** X11: [_get] backs off linearly: each failed attempt [i] is followed by
    a sleep of [i] seconds, the last one included when all [retries]
    attempts fail; a response that passes is returned at once. Nothing but
    these requests and sleeps happens. *)
Theorem get_backs_off_linearly (url : string) (retries timeout : Z) (w : world) :
  let '(res, w') := _get url retries timeout w in
  db_up w' = db_up w ∧ tables w' = tables w ∧
  match res with
  | Ok (Some _) =>
      ∃ failed : nat,
        requests w' = S (requests w + failed) ∧ Z.of_nat failed < retries ∧
        trace w' = trace w ++ backoff url (λ i, i) (range 1 (1 + Z.of_nat failed))
                           ++ [EvGet url]
  | _ =>
      requests w' = (requests w + Z.to_nat retries)%nat ∧
      trace w' = trace w ++ backoff url (λ i, i) (range 1 (retries + 1))
  end.
Proof.
  destruct (_get url retries timeout w) as [res w'] eqn:Hrun. unfold _get in Hrun.
  pose proof (range_length 1 (retries + 1)) as Hlen.
  replace (retries + 1 - 1) with retries in Hlen by lia.
  apply get_loop_trace in Hrun as (Hd & Ht & Hres); [|apply range_nonneg; lia].
  split; [exact Hd|]. split; [exact Ht|].
  rewrite Hlen in Hres. destruct res as [[resp|]|e]; try exact Hres.
  destruct Hres as (failed & Hr & Hl & Htr). exists failed.
  split; [exact Hr|]. split; [lia|].
  rewrite Htr, firstn_range; [reflexivity|lia].
Qed.

Lemma get_backs_off_frame url retries timeout w :
  let '(res, w') := _get url retries timeout w in
  db_up w' = db_up w ∧ tables w' = tables w.
Proof.
  destruct (_get url retries timeout w) as [res w'] eqn:Hrun. unfold _get in Hrun.
  apply get_loop_trace in Hrun as (Hd & Ht & _); [auto | apply range_nonneg; lia].
Qed.

(** X12: with no attempt allowed, [_get] returns [None] without any
    request: the only case in which it does. *)
Theorem get_without_attempt (url : string) (retries timeout : Z) (w : world) :
  retries ≤ 0 → _get url retries timeout w = (Ok None, w).
Proof.
  intros H. unfold _get, range.
  replace (Z.to_nat (retries + 1 - 1)) with 0%nat by lia. reflexivity.
Qed.

Lemma get_without_attempt_witness :
  0 ≤ 0 ∧
  _get "https://example.org/games" 0 20 (fresh sample_net) = (Ok None, fresh sample_net).
Proof.
  split; [lia|].
  apply (get_without_attempt "https://example.org/games" 0 20 (fresh sample_net)). lia.
Defined.

End GetFacts.

(** ** The robots check *)

Module RobotsFacts.
Import Py Net Spec Notions Samples Inputs NetFacts StrFacts Scraper.
Local Open Scope list_scope.

Lemma lower_char_colon c : lower_char c = ":"%char → c = ":"%char.
Proof.
  destruct c as [[] [] [] [] [] [] [] []]; vm_compute; intros H;
    first [reflexivity | discriminate].
Qed.

Lemma split_char_second sep s :
  In sep (list_ascii_of_string s) → ∃ a b rest, split_char sep s = a :: b :: rest.
Proof.
  induction s as [|c s IH]; [intros []|].
  cbn [split_char]. intros Hin. apply in_inv in Hin.
  destruct (Ascii.eqb c sep) eqn:E.
  - destruct (split_char_pieces sep s) as (w & ws & _ & -> & _). now exists EmptyString, w, ws.
  - destruct Hin as [Hc|Hin]; [rewrite Hc, Ascii.eqb_refl in E; discriminate|].
    destruct (IH Hin) as (a & b & rest & ->). now exists (String c a), b, rest.
Qed.

(** A line that starts with ["disallow:"] has a colon, hence a second
    piece. *)
Lemma disallow_line_value line :
  startswith "disallow:" (lower line) = true →
  index (split_char ":" line) 1 = Ok (nth 1 (split_char ":" line) EmptyString).
Proof.
  intros H.
  assert (Hin : In ":"%char (list_ascii_of_string line)).
  { do 9 (destruct line as [|? line]; [cbn in H; discriminate|];
          cbn [lower startswith] in H; apply andb_true_iff in H as [? H]).
    match goal with
    | Hc : Ascii.eqb ":" (lower_char ?c) = true |- _ =>
        apply Ascii.eqb_eq in Hc; symmetry in Hc; apply lower_char_colon in Hc;
        subst c
    end.
    cbn [list_ascii_of_string]. do 8 right. now left. }
  destruct (split_char_second _ _ Hin) as (a & b & rest & ->). reflexivity.
Qed.

Section Libraries.
Variable urlparse : string → string * string.

Lemma robots_check_eq (base : string) (w : world) :
  _allowed_by_robots urlparse base w =
  (Ok (match net w (requests w) (robots_url urlparse base) with
       | Fails _ => true
       | Responds r =>
           if status_code r =? 200
           then negb (str_in "/" (disallow_values (text r)))
           else true
       end),
   after_get (robots_url urlparse base) w).
Proof.
  unfold _allowed_by_robots, robots_url, try_catch.
  destruct (urlparse base) as [scheme netloc]. cbn [fst snd].
  unfold bind at 1. rewrite requests_get_eq.
  destruct (net w (requests w) _) as [k|r]; [reflexivity|].
  destruct (status_code r =? 200); cbn [negb]; [|reflexivity].
  unfold bind, lift, ret, disallow_values.
  match goal with
  | |- context [?f (splitlines (text r))] =>
      assert (Heach : ∀ ls,
                f ls =
                Ok (map (λ line, strip (nth 1 (split_char ":" line) EmptyString))
                      (List.filter (λ line, startswith "disallow:" (lower line)) ls)))
  end.
  { induction ls as [|line ls IH]; [reflexivity|].
    cbn [List.filter]. destruct (startswith "disallow:" (lower line)) eqn:E.
    - rewrite (disallow_line_value _ E). cbn [rbind]. rewrite IH. reflexivity.
    - exact IH. }
  rewrite Heach. reflexivity.
Qed.

End Libraries.

(** The root is closed by the third line, whatever its case and spacing. *)
Example robots_closed_site :
  fst (_allowed_by_robots sample_urlparse "https://example.org" (fresh closed_site))
  = Ok false ∧
  disallow_values closed_robots = ["/private"%string; "/"%string].
Proof. split; vm_compute; reflexivity. Qed.

End RobotsFacts.

(** ** Scraped rows *)

Module ScrapeFacts.
Import Py Net Spec Notions Samples Inputs NetFacts StrFacts NormalizeFacts.
Import GetFacts Scraper.
Local Open Scope list_scope.

Lemma or_empty_some s : or_empty (Some s) = s.
Proof. now destruct s. Qed.

(** X14: [_hash_id] does not tell an absent part from an empty one, nor
    where a ["|"] inside a part stands from the separator between parts:
    a title that ends in ["|" ++ x] before a link [y] gives the same id as
    the title without it before the link [x ++ "|" ++ y]. *)
Theorem hash_id_conflates (n x : option string) (t h d : string) :
  _hash_id [n; None; x; Some d] = _hash_id [n; Some EmptyString; x; Some d] ∧
  _hash_id [n; Some (t ++ "|" ++ h)%string; Some d; x] =
  _hash_id [n; Some t; Some (h ++ "|" ++ d)%string; x].
Proof.
  split; [reflexivity|]. unfold _hash_id. do 3 f_equal.
  cbn [map join]. rewrite !or_empty_some.
  now rewrite !append_assoc.
Qed.

Lemma present_text_or_none node : present (_text_or_none node).
Proof.
  unfold present, _text_or_none. destruct node as [el|]; [|now left].
  destruct (str_truthy (get_text el)) eqn:E; [now right | now left].
Qed.

Section Libraries.
Variable select : string → string → result (list element).
Variable urlparse : string → string * string.

Lemma field_text_present cfg s key v :
  field_text select cfg s key = Ok v → present v.
Proof.
  unfold field_text, _select_text. destruct (fields cfg !! key) as [sel|].
  - destruct (negb (str_truthy sel)); [intros [= <-]; now left|].
    destruct (select_one select s sel) as [el|]; [|discriminate].
    cbn [rbind]. intros [= <-]. apply present_text_or_none.
  - intros [= <-]. now left.
Qed.

Lemma with_constant_fallback cfg key v :
  present v → with_fallback cfg key (with_constant cfg key v).
Proof.
  intros Hv. unfold with_fallback, with_constant.
  destruct (negb (opt_truthy v)); [|now left].
  destruct (constant_fields cfg !! key) as [c|] eqn:E; [now right | now left].
Qed.

Lemma parse_item_row cfg item r :
  parse_item select cfg item = Ok r → scraped_row cfg r.
Proof.
  unfold parse_item.
  destruct (field_text select cfg (outer item) "title") as [t|] eqn:Et; [|discriminate].
  destruct (link_href select cfg (outer item)) as [h|]; [|discriminate].
  destruct (field_text select cfg (outer item) "platforms") as [p|] eqn:Ep; [|discriminate].
  destruct (field_text select cfg (outer item) "genres") as [g|] eqn:Eg; [|discriminate].
  destruct (field_text select cfg (outer item) "release_date") as [d|] eqn:Ed; [|discriminate].
  destruct (field_text select cfg (outer item) "rating") as [rt|]; [|discriminate].
  cbn [rbind]. destruct (rating_value rt); [|discriminate].
  cbn [rbind]. intros [= <-]. unfold scraped_row.
  cbn [source raw_json game_id title release_date platforms genres].
  split; [reflexivity|]. split; [reflexivity|]. split.
  { eexists. split; [reflexivity|]. unfold _hash_id. apply Z.mod_pos_bound. lia. }
  split; [exact (field_text_present _ _ _ _ Et)|].
  split; [exact (field_text_present _ _ _ _ Ed)|].
  split; apply with_constant_fallback; eapply field_text_present; eassumption.
Qed.

Lemma parse_items_rows cfg items :
  ∀ rows, parse_items select cfg items = Ok rows →
          length rows = length items ∧ Forall (scraped_row cfg) rows.
Proof.
  induction items as [|item rest IH]; intros rows H.
  - injection H as <-. split; [reflexivity | constructor].
  - cbn [parse_items] in H.
    destruct (parse_item select cfg item) as [r|] eqn:Er; [|discriminate].
    cbn [rbind] in H.
    destruct (parse_items select cfg rest) as [rs|]; [|discriminate].
    cbn [rbind] in H. injection H as <-. destruct (IH rs eq_refl) as [Hl Hf].
    split; [cbn [length]; now rewrite Hl|].
    constructor; [exact (parse_item_row _ _ _ Er) | exact Hf].
Qed.

Lemma parse_list_page_scraped html cfg rows :
  parse_list_page select html cfg = Ok rows →
  ∃ items, select html (item_selector cfg) = Ok items ∧
           length rows = length items ∧ Forall (scraped_row cfg) rows.
Proof.
  unfold parse_list_page.
  destruct (select html (item_selector cfg)) as [items|]; [|discriminate].
  cbn [rbind]. intros H. exists items. split; [reflexivity|].
  now apply parse_items_rows.
Qed.

(** X15: a page that parses gives one row for each node that the item
    selector finds; each row carries the source ["scrape:" ++ name], no raw
    payload and an id in [0, 2^63 - 1); its title and release date are
    absent or non-empty, and its platforms and genres are absent, non-empty
    or the constant of the descriptor. *)
Theorem parse_list_page_rows (html : string) (cfg : SourceCfg) (rows : list row) :
  parse_list_page select html cfg = Ok rows →
  ∃ items, select html (item_selector cfg) = Ok items ∧
           length rows = length items ∧ Forall (scraped_row cfg) rows.
Proof. apply parse_list_page_scraped. Qed.

Lemma scrape_loop_rows cfg limit urls :
  ∀ out w rows w',
    Forall (scraped_row cfg) out →
    scrape_loop select cfg limit urls out w = (Ok rows, w') →
    Forall (scraped_row cfg) rows ∧ db_up w' = db_up w ∧ tables w' = tables w.
Proof.
  induction urls as [|url rest IH]; intros out w rows w' Hout Hrun.
  - injection Hrun as <- <-. auto.
  - cbn [scrape_loop] in Hrun. unfold bind at 1 in Hrun.
    destruct (_get url DEFAULT_RETRIES DEFAULT_TIMEOUT w) as [[resp|e] w1] eqn:Eg;
      [|discriminate].
    pose proof (get_backs_off_frame url DEFAULT_RETRIES DEFAULT_TIMEOUT w) as Hfr.
    rewrite Eg in Hfr. destruct Hfr as [Hd Ht].
    unfold bind at 1 in Hrun. rewrite sleep_eq in Hrun by (unfold PAUSE_BETWEEN_REQUESTS; lia).
    unfold bind at 1, lift in Hrun.
    destruct (rbind (text_of resp) (λ html, parse_list_page select html cfg))
      as [page|] eqn:Ep; [|discriminate].
    assert (Hpage : Forall (scraped_row cfg) page).
    { destruct (text_of resp) as [html|]; [|discriminate]. cbn [rbind] in Ep.
      now apply parse_list_page_scraped in Ep as (items & _ & _ & Hf). }
    assert (Hall : Forall (scraped_row cfg) (out ++ page)) by now apply Forall_app.
    destruct (Z.of_nat (length (out ++ page)) >=? limit).
    + injection Hrun as <- <-. cbn [after_sleep db_up tables]. auto.
    + apply IH in Hrun as (Hf & Hd' & Ht'); [|exact Hall].
      cbn [after_sleep db_up tables] in *. split; [exact Hf|].
      split; congruence.
Qed.

(** X16: the rows that [scrape_source] returns are rows of its
    descriptor, at most [limit] of them when [limit] is not negative, and
    scraping leaves the store alone. *)
Theorem scrape_source_rows (cfg : SourceCfg) (limit : Z) (w w' : world)
    (rows : list row) :
  scrape_source select urlparse cfg limit w = (Ok rows, w') →
  Forall (scraped_row cfg) rows ∧
  (0 ≤ limit → (length rows ≤ Z.to_nat limit)%nat) ∧
  db_up w' = db_up w ∧ tables w' = tables w.
Proof.
  unfold scrape_source. unfold bind at 1.
  rewrite RobotsFacts.robots_check_eq.
  set (allowed := match net w _ _ with Fails _ => true | Responds _ => _ end).
  destruct allowed; cbn [negb].
  - unfold bind, ret.
    destruct (scrape_loop select cfg limit (list_urls cfg) [] _) as [[out|e] w1] eqn:El;
      [|discriminate].
    intros [= <- <-].
    apply scrape_loop_rows in El as (Hf & Hd & Ht); [|constructor].
    cbn [after_get db_up tables] in Hd, Ht.
    split; [|split; [|split; assumption]].
    + unfold list_slice_to. destruct (limit <? 0); now apply Forall_take.
    + intros Hl. unfold list_slice_to. destruct (limit <? 0) eqn:E; [lia|].
      apply firstn_le_length.
  - intros [= <- <-]. split; [constructor|]. split; [simpl; lia|]. split; reflexivity.
Qed.

(** X17: when [robots.txt] is served with status 200 and one of its
    [Disallow] values is ["/"], [scrape_source] returns no row and requests
    nothing but [robots.txt]. *)
Theorem scrape_source_respects_robots (cfg : SourceCfg) (limit : Z) (w : world)
    (r : response) :
  net w (requests w) (robots_url urlparse (base_url cfg)) = Responds r →
  status_code r = 200 →
  str_in "/" (disallow_values (text r)) = true →
  scrape_source select urlparse cfg limit w =
  (Ok [], after_get (robots_url urlparse (base_url cfg)) w).
Proof.
  intros Hr Hs Hd. unfold scrape_source. unfold bind at 1.
  rewrite RobotsFacts.robots_check_eq, Hr, Hs, Hd. reflexivity.
Qed.




(** X29: when the first list page parses to [limit] rows or more,
    [scrape_source] sleeps its pause and returns the slice [[:limit]] of
    that page without asking for the list URLs that remain; with a [limit]
    of zero it still requests the first page, and returns nothing. *)
Theorem scrape_source_stops_at_limit (cfg : SourceCfg) (limit : Z)
    (w w0 w1 : world) (url : string) (rest : list string) (resp : response)
    (page : list row) :
  _allowed_by_robots urlparse (base_url cfg) w = (Ok true, w0) →
  list_urls cfg = url :: rest →
  _get url DEFAULT_RETRIES DEFAULT_TIMEOUT w0 = (Ok (Some resp), w1) →
  parse_list_page select (text resp) cfg = Ok page →
  limit ≤ Z.of_nat (length page) →
  scrape_source select urlparse cfg limit w =
  (Ok (list_slice_to limit page), after_sleep PAUSE_BETWEEN_REQUESTS w1).
Proof.
  intros Hrobots Hurls Hget Hpage Hlimit.
  unfold scrape_source. unfold bind at 1. rewrite Hrobots. cbn [negb].
  rewrite Hurls. cbn [scrape_loop]. unfold bind at 1. unfold bind at 1.
  rewrite Hget. unfold bind at 1.
  rewrite sleep_eq by (unfold PAUSE_BETWEEN_REQUESTS; lia).
  unfold bind at 1, lift. cbn [text_of rbind]. rewrite Hpage. cbn [app].
  destruct (Z.of_nat (length page) >=? limit) eqn:E; [reflexivity | lia].
Qed.

End Libraries.

Lemma scrape_source_stops_at_limit_witness :
  _allowed_by_robots sample_urlparse (base_url two_page_cfg) (fresh sample_net) =
    (Ok true, after_get "https://example.org/robots.txt" (fresh sample_net)) ∧
  list_urls two_page_cfg = "https://example.org/games" :: ["https://example.org/games?page=2"] ∧
  _get "https://example.org/games" DEFAULT_RETRIES DEFAULT_TIMEOUT
       (after_get "https://example.org/robots.txt" (fresh sample_net)) =
    (Ok (Some (mkResponse 200 None "<ul>...</ul>" None)),
     after_get "https://example.org/games"
       (after_get "https://example.org/robots.txt" (fresh sample_net))) ∧
  parse_list_page sample_select (text (mkResponse 200 None "<ul>...</ul>" None))
    two_page_cfg = Ok [hades_row; untitled_row] ∧
  0 ≤ Z.of_nat (length [hades_row; untitled_row]) ∧
  scrape_source sample_select sample_urlparse two_page_cfg 0 (fresh sample_net) =
  (Ok (list_slice_to 0 [hades_row; untitled_row]),
   after_sleep PAUSE_BETWEEN_REQUESTS
     (after_get "https://example.org/games"
        (after_get "https://example.org/robots.txt" (fresh sample_net)))).
Proof.
  split; [vm_compute; reflexivity|]. split; [reflexivity|].
  split; [vm_compute; reflexivity|]. split; [vm_compute; reflexivity|].
  split; [simpl; lia|].
  apply (scrape_source_stops_at_limit sample_select sample_urlparse two_page_cfg 0
           (fresh sample_net)
           (after_get "https://example.org/robots.txt" (fresh sample_net))
           (after_get "https://example.org/games"
              (after_get "https://example.org/robots.txt" (fresh sample_net)))
           "https://example.org/games" ["https://example.org/games?page=2"%string]
           (mkResponse 200 None "<ul>...</ul>" None) [hades_row; untitled_row]);
    first [reflexivity | vm_compute; reflexivity | (simpl; lia)].
Defined.

Lemma parse_list_page_rows_witness :
  parse_list_page sample_select "<ul>...</ul>" sample_cfg = Ok [hades_row; untitled_row] ∧
  ∃ items, sample_select "<ul>...</ul>" (item_selector sample_cfg) = Ok items ∧
           length [hades_row; untitled_row] = length items ∧
           Forall (scraped_row sample_cfg) [hades_row; untitled_row].
Proof.
  split; [vm_compute; reflexivity|].
  apply (parse_list_page_rows sample_select "<ul>...</ul>" sample_cfg).
  vm_compute. reflexivity.
Defined.

Lemma scrape_source_rows_witness :
  scrape_source sample_select sample_urlparse sample_cfg 1 (fresh sample_net) =
    (Ok [hades_row], scraped_world) ∧
  Forall (scraped_row sample_cfg) [hades_row] ∧
  (0 ≤ 1 → (length [hades_row] ≤ Z.to_nat 1)%nat) ∧
  db_up scraped_world = db_up (fresh sample_net) ∧
  tables scraped_world = tables (fresh sample_net).
Proof.
  split; [vm_compute; reflexivity|].
  apply (scrape_source_rows sample_select sample_urlparse sample_cfg 1
           (fresh sample_net) scraped_world).
  vm_compute. reflexivity.
Defined.

Lemma scrape_source_respects_robots_witness :
  net (fresh closed_site) (requests (fresh closed_site))
      (robots_url sample_urlparse (base_url sample_cfg)) =
    Responds (mkResponse 200 None closed_robots None) ∧
  status_code (mkResponse 200 None closed_robots None) = 200 ∧
  str_in "/" (disallow_values (text (mkResponse 200 None closed_robots None))) = true ∧
  scrape_source sample_select sample_urlparse sample_cfg 50 (fresh closed_site) =
  (Ok [], after_get (robots_url sample_urlparse (base_url sample_cfg))
            (fresh closed_site)).
Proof.
  split; [vm_compute; reflexivity|]. split; [reflexivity|].
  split; [vm_compute; reflexivity|].
  apply (scrape_source_respects_robots sample_select sample_urlparse sample_cfg 50
           (fresh closed_site) (mkResponse 200 None closed_robots None));
    vm_compute; reflexivity.
Defined.

End ScrapeFacts.

(** ** Loading the descriptors, and the optional scraping stage *)

Module ConfigFacts.
Import Py Net Spec Notions Samples Inputs Scraper.
Local Open Scope list_scope.

Lemma load_each_loaded data :
  match load_each data with
  | Ok cfgs => Forall2 loaded data cfgs
  | Raise e =>
      forallb complete data = false ∧
      ∃ key, e = KeyError key ∧
             In key ["name"; "base_url"; "list_urls"; "item_selector"]%string
  end.
Proof.
  induction data as [|s rest IH]; [constructor|].
  cbn [load_each forallb]. unfold required, complete.
  destruct (rs_name s) as [n|] eqn:En; cbn [rbind];
    [|split; [reflexivity|]; eexists; split; [reflexivity|]; now left].
  destruct (rs_base_url s) as [b|] eqn:Eb; cbn [rbind];
    [|split; [reflexivity|]; eexists; split; [reflexivity|]; right; now left].
  destruct (rs_list_urls s) as [l|] eqn:El; cbn [rbind];
    [|split; [reflexivity|]; eexists; split; [reflexivity|]; do 2 right; now left].
  destruct (rs_item_selector s) as [i|] eqn:Ei; cbn [rbind];
    [|split; [reflexivity|]; eexists; split; [reflexivity|]; do 3 right; now left].
  destruct (load_each rest) as [cfgs|e]; cbn [rbind andb].
  - constructor; [|exact IH]. unfold loaded.
    cbn [name base_url list_urls item_selector fields constant_fields].
    now rewrite En, Eb, El, Ei.
  - exact IH.
Qed.

Section Libraries.
Variable select : string → string → result (list element).
Variable urlparse : string → string * string.
Variable read_json : string → result (list raw_source).

(** X18: once the file is read, [load_sources] returns one descriptor for
    each source entry, in order, with the four required values of the entry
    and with empty maps for the optional ones that are not given; a single
    entry that lacks a required key makes the whole loading fail with a
    [KeyError] for one of the four keys. *)
Theorem load_sources_checks_keys (path : string) (data : list raw_source) :
  read_json path = Ok data →
  match load_sources read_json path with
  | Ok cfgs => Forall2 loaded data cfgs
  | Raise e =>
      forallb complete data = false ∧
      ∃ key, e = KeyError key ∧
             In key ["name"; "base_url"; "list_urls"; "item_selector"]%string
  end.
Proof.
  intros H. unfold load_sources. rewrite H. cbn [rbind]. apply load_each_loaded.
Qed.

Lemma maybe_scrape_eq (env : Etl.environ) (limit : Z) (w : world) :
  Etl.maybe_scrape_and_merge select urlparse read_json env limit w =
  if scrape_enabled env then
    match load_sources read_json
            (default "scrape_sources.json"%string (Etl.SCRAPE_CONFIG env)) with
    | Ok cfgs =>
        (Ok (concat (map contribution (fst (outcomes select urlparse cfgs limit w)))),
         snd (outcomes select urlparse cfgs limit w))
    | Raise _ => (Ok [], w)
    end
  else (Ok [], w).
Proof.
  unfold Etl.maybe_scrape_and_merge, scrape_enabled, try_catch.
  destruct (str_in _ _); [|reflexivity].
  unfold bind at 1, scrape_all_sources, bind at 1, lift.
  destruct (load_sources read_json _) as [cfgs|e]; [|reflexivity].
  now rewrite SourcesFacts.scrape_each_outcomes.
Qed.


(** X19: [maybe_scrape_and_merge] never raises. Unless [SCRAPE_ENABLED] is
    ["1"], ["true"] or ["yes"], letter case apart, it returns no row and
    does nothing; so it does when the descriptors cannot be loaded;
    otherwise it returns the rows of the descriptors whose scraping
    returned. *)
Theorem maybe_scrape_never_raises (env : Etl.environ) (limit : Z) (w : world) :
  Etl.maybe_scrape_and_merge select urlparse read_json env limit w =
  if scrape_enabled env then
    match load_sources read_json
            (default "scrape_sources.json"%string (Etl.SCRAPE_CONFIG env)) with
    | Ok cfgs =>
        (Ok (concat (map contribution (fst (outcomes select urlparse cfgs limit w)))),
         snd (outcomes select urlparse cfgs limit w))
    | Raise _ => (Ok [], w)
    end
  else (Ok [], w).
Proof. apply maybe_scrape_eq. Qed.

End Libraries.

Lemma load_sources_checks_keys_witness :
  broken_read_json "scrape_sources.json" = Ok broken_data ∧
  match load_sources broken_read_json "scrape_sources.json" with
  | Ok cfgs => Forall2 loaded broken_data cfgs
  | Raise e =>
      forallb complete broken_data = false ∧
      ∃ key, e = KeyError key ∧
             In key ["name"; "base_url"; "list_urls"; "item_selector"]%string
  end.
Proof.
  split; [reflexivity|].
  apply (load_sources_checks_keys broken_read_json "scrape_sources.json" broken_data).
  reflexivity.
Defined.

(** With that configuration the scraping stage gives nothing and asks
    nothing, although its first source is in order. *)
Example broken_configuration_scrapes_nothing :
  Etl.maybe_scrape_and_merge sample_select sample_urlparse broken_read_json
    (Etl.mkEnviron (Some "TRUE") None) 50 (fresh sample_net) =
  (Ok [], fresh sample_net).
Proof. vm_compute. reflexivity. Qed.

End ConfigFacts.

(** ** The run as a whole *)

Module MainFacts.
Import Py Net Spec Notions Samples Inputs NetFacts UpsertFacts Etl Entry.
Local Open Scope list_scope.

Section Libraries.
Variable select : string → string → result (list Scraper.element).
Variable urlparse : string → string * string.
Variable read_json : string → result (list Scraper.raw_source).

Lemma main_stages cfg args env w timeout retries :
  Num.py_int (HTTP_TIMEOUT cfg) = Ok timeout →
  Num.py_int (HTTP_RETRIES cfg) = Ok retries →
  main select urlparse read_json cfg args env w =
  match stages select urlparse read_json cfg args env timeout retries w with
  | (Ok code, w') => (Ok code, w')
  | (Raise _, w') => (Ok 1, w')
  end.
Proof.
  intros Ht Hr. unfold main, bind at 1, lift. rewrite Ht.
  unfold bind at 1. rewrite Hr. unfold try_catch.
  change (match stages select urlparse read_json cfg args env timeout retries w with
          | (Ok a, w') => (Ok a, w')
          | (Raise e, w') => ret 1 w'
          end = match stages select urlparse read_json cfg args env timeout retries w with
                | (Ok code, w') => (Ok code, w')
                | (Raise _, w') => (Ok 1, w')
                end).
  destruct (stages select urlparse read_json cfg args env timeout retries w)
    as [[code|e] w']; reflexivity.
Qed.



(** X21: when the store cannot be reached, [main] ends with exit code 1
    at its first stage: nothing is requested from the catalog or from any
    site and the world is untouched. *)
Theorem main_store_unreachable (cfg : config) (args : arguments) (env : environ)
    (w : world) (timeout retries : Z) :
  Num.py_int (HTTP_TIMEOUT cfg) = Ok timeout →
  Num.py_int (HTTP_RETRIES cfg) = Ok retries →
  db_up w = false →
  main select urlparse read_json cfg args env w = (Ok 1, w).
Proof.
  intros Ht Hr Hup. rewrite (main_stages _ _ _ _ _ _ Ht Hr).
  unfold stages. unfold bind at 1. rewrite ensure_table_eq, Hup. reflexivity.
Qed.

(** X22: with the catalog switched off by [--no-api] and scraping not
    enabled, a run on a reachable store ends with exit code 0 after its
    table transaction alone: no request, no upsert. *)
Theorem main_empty_run (cfg : config) (args : arguments) (env : environ)
    (w : world) (timeout retries : Z) :
  Num.py_int (HTTP_TIMEOUT cfg) = Ok timeout →
  Num.py_int (HTTP_RETRIES cfg) = Ok retries →
  db_up w = true →
  no_api args = true →
  scrape_enabled env = false →
  ∃ w',
    main select urlparse read_json cfg args env w = (Ok 0, w') ∧
    requests w' = requests w ∧
    trace w' = trace w ++ [EvBegin; EvCreateTable (DB_TABLE cfg); EvCommit] ∧
    tables w' !! DB_TABLE cfg = Some (default ∅ (tables w !! DB_TABLE cfg)).
Proof.
  intros Ht Hr Hup Hno Hoff. rewrite (main_stages _ _ _ _ _ _ Ht Hr).
  unfold stages. unfold bind at 1. rewrite ensure_table_eq, Hup, Hno. cbn [negb].
  unfold bind at 1, ret at 1. unfold bind at 1.
  rewrite ConfigFacts.maybe_scrape_eq, Hoff.
  change (reconcile [] []) with (@nil row). unfold upsert_rows, bind, ret.
  eexists. split; [reflexivity|]. cbn [requests trace tables].
  split; [reflexivity|]. split; [now rewrite <- !app_assoc|].
  destruct (tables w !! DB_TABLE cfg) as [t|] eqn:E; [exact E|].
  apply lookup_insert_eq.
Qed.

(** X23: run from an environment that sets neither [RAWG_API_KEY] (or
    sets it to the empty string), nor [HTTP_TIMEOUT], nor [HTTP_RETRIES],
    and without [--no-api], the script ends with exit code 1 without any
    request; the missing key is found only after the table, [games] unless
    [DB_TABLE] names another, has been created in the store. *)
Theorem run_without_key (getenv : string → option string) (args : arguments)
    (w : world) :
  getenv "RAWG_API_KEY"%string = None ∨
    getenv "RAWG_API_KEY"%string = Some EmptyString →
  getenv "HTTP_TIMEOUT"%string = None →
  getenv "HTTP_RETRIES"%string = None →
  no_api args = false →
  db_up w = true →
  let table := default "games"%string (getenv "DB_TABLE"%string) in
  ∃ w',
    run select urlparse read_json getenv args w = (Ok 1, w') ∧
    requests w' = requests w ∧
    trace w' = trace w ++ [EvBegin; EvCreateTable table; EvCommit] ∧
    is_Some (tables w' !! table).
Proof.
  intros Hkey Ht Hr Hno Hup table. unfold run.
  rewrite (main_stages (load_config getenv) _ _ _ 20 3);
    [|unfold load_config; cbn [HTTP_TIMEOUT]; rewrite Ht; reflexivity
     |unfold load_config; cbn [HTTP_RETRIES]; rewrite Hr; reflexivity].
  unfold stages. unfold bind at 1. rewrite ensure_table_eq, Hup, Hno. cbn [negb].
  assert (Hk : RAWG_API_KEY (load_config getenv) = EmptyString).
  { unfold load_config. cbn [RAWG_API_KEY]. now destruct Hkey as [-> | ->]. }
  unfold bind at 1, rawg_fetch_latest. rewrite Hk. cbn [str_truthy negb]. unfold raise.
  eexists. split; [reflexivity|]. cbn [requests trace tables].
  split; [reflexivity|]. split; [now rewrite <- !app_assoc|].
  change (DB_TABLE (load_config getenv)) with table.
  destruct (tables w !! table) as [t|] eqn:E; [now rewrite E|].
  rewrite lookup_insert_eq. now eexists.
Qed.

End Libraries.

Lemma main_store_unreachable_witness :
  Num.py_int (HTTP_TIMEOUT (load_config no_environment)) = Ok 20 ∧
  Num.py_int (HTTP_RETRIES (load_config no_environment)) = Ok 3 ∧
  db_up (mkWorld sample_net 0 [] false ∅) = false ∧
  main sample_select sample_urlparse sample_read_json (load_config no_environment)
    (mkArguments 50 false) (mkEnviron (Some "true") None)
    (mkWorld sample_net 0 [] false ∅) =
  (Ok 1, mkWorld sample_net 0 [] false ∅).
Proof.
  split; [reflexivity|]. split; [reflexivity|]. split; [reflexivity|].
  apply (main_store_unreachable sample_select sample_urlparse sample_read_json
           (load_config no_environment) (mkArguments 50 false)
           (mkEnviron (Some "true") None) (mkWorld sample_net 0 [] false ∅) 20 3);
    reflexivity.
Defined.

Lemma main_empty_run_witness :
  Num.py_int (HTTP_TIMEOUT (load_config table_only)) = Ok 20 ∧
  Num.py_int (HTTP_RETRIES (load_config table_only)) = Ok 3 ∧
  db_up (fresh sample_net) = true ∧
  no_api (mkArguments 50 true) = true ∧
  scrape_enabled (mkEnviron (Some "no") None) = false ∧
  ∃ w',
    main sample_select sample_urlparse sample_read_json (load_config table_only)
      (mkArguments 50 true) (mkEnviron (Some "no") None) (fresh sample_net) =
      (Ok 0, w') ∧
    requests w' = requests (fresh sample_net) ∧
    trace w' = trace (fresh sample_net) ++
               [EvBegin; EvCreateTable (DB_TABLE (load_config table_only)); EvCommit] ∧
    tables w' !! DB_TABLE (load_config table_only) =
      Some (default ∅ (tables (fresh sample_net) !! DB_TABLE (load_config table_only))).
Proof.
  split; [reflexivity|]. split; [reflexivity|]. split; [reflexivity|].
  split; [reflexivity|]. split; [reflexivity|].
  apply (main_empty_run sample_select sample_urlparse sample_read_json
           (load_config table_only) (mkArguments 50 true)
           (mkEnviron (Some "no") None) (fresh sample_net) 20 3);
    reflexivity.
Defined.

Lemma run_without_key_witness :
  (table_only "RAWG_API_KEY"%string = None ∨
   table_only "RAWG_API_KEY"%string = Some EmptyString) ∧
  table_only "HTTP_TIMEOUT"%string = None ∧
  table_only "HTTP_RETRIES"%string = None ∧
  no_api (mkArguments 50 false) = false ∧
  db_up (fresh sample_net) = true ∧
  ∃ w',
    run sample_select sample_urlparse sample_read_json table_only
      (mkArguments 50 false) (fresh sample_net) = (Ok 1, w') ∧
    requests w' = requests (fresh sample_net) ∧
    trace w' = trace (fresh sample_net) ++
               [EvBegin; EvCreateTable (default "games"%string (table_only "DB_TABLE"%string));
                EvCommit] ∧
    is_Some (tables w' !! default "games"%string (table_only "DB_TABLE"%string)).
Proof.
  split; [now left|]. split; [reflexivity|]. split; [reflexivity|].
  split; [reflexivity|]. split; [reflexivity|].
  apply (run_without_key sample_select sample_urlparse sample_read_json table_only
           (mkArguments 50 false) (fresh sample_net));
    first [reflexivity | now left].
Defined.

End MainFacts.

(** ** More on the read API *)

Module AnswerFacts.
Import Py Spec Notions Samples Inputs StrFacts ApiFacts Api Auth.
Local Open Scope list_scope.

Section Store.
Variable jwt_decode : string → result (option string).
Variable sql_like : string → string → bool.
Variable str_of : exn → string.

(** X24: a request without bearer token, with a token that the library
    rejects, or with a token without subject, is answered with status 401
    whatever the handler would have done: the store is not consulted. *)
Theorem no_valid_token_is_401 (bearer : option string) (handler : result body) :
  bearer = None ∨
  (∃ token, bearer = Some token ∧
            (jwt_decode token = Ok None ∨ jwt_decode token = Raise JWTError)) →
  ∃ msg, route jwt_decode bearer handler = mkHttp 401 (Detail msg).
Proof.
  unfold route, oauth2_scheme, verify_token.
  intros [->|(token & -> & [H|H])]; cbn [rbind];
    try rewrite H; eexists; reflexivity.
Qed.

Lemma route_guarded bearer h :
  (∀ token e, jwt_decode token = Raise e → e = JWTError) →
  guarded h → answer_ok (route jwt_decode bearer h).
Proof.
  intros Hjwt Hh. unfold route, oauth2_scheme, verify_token, answer_ok.
  destruct bearer as [token|]; cbn [rbind];
    [|right; split; [now left | now eexists]].
  destruct (jwt_decode token) as [[user|]|e] eqn:Ed; cbn [rbind].
  - destruct Hh as [(key & rows & -> & Hne)|[(key & rows & -> & Hne)|[msg ->]]];
      cbn [respond status content].
    + left. split; [reflexivity|]. left. now exists key, rows.
    + left. split; [reflexivity|]. right. now exists key, rows.
    + right. split; [now right | now eexists].
  - right. split; [now left | now eexists].
  - rewrite (Hjwt _ _ Ed). right. split; [now left | now eexists].
Qed.

Lemma nonempty_not_nil {A} (l : list A) : is_empty l = false → l ≠ [].
Proof. now destruct l. Qed.

Lemma get_all_games_guarded db : guarded (get_all_games str_of db).
Proof.
  unfold get_all_games, connect_to_db, try_except, internal_error.
  destruct (up db); cbn [rbind]; [|right; right; now eexists].
  destruct (is_empty (games db)) eqn:E; [right; right; now eexists|].
  left. exists "games"%string, (games db). split; [reflexivity|].
  now apply nonempty_not_nil.
Qed.

Lemma get_game_by_title_guarded db t : guarded (get_game_by_title sql_like str_of db t).
Proof.
  unfold get_game_by_title, connect_to_db, try_except, internal_error.
  destruct (up db); cbn [rbind]; [|right; right; now eexists].
  destruct (is_empty _) eqn:E; [right; right; now eexists|].
  left. eexists _, _. split; [reflexivity|]. now apply nonempty_not_nil.
Qed.

Lemma get_all_platforms_guarded db : guarded (get_all_platforms str_of db).
Proof.
  unfold get_all_platforms, connect_to_db, try_except, internal_error.
  destruct (up db); cbn [rbind]; [|right; right; now eexists].
  destruct (is_empty (platforms db)) eqn:E; [right; right; now eexists|].
  right. left. eexists _, _. split; [reflexivity|]. now apply nonempty_not_nil.
Qed.

Lemma get_games_by_genre_guarded db n : guarded (get_games_by_genre sql_like str_of db n).
Proof.
  unfold get_games_by_genre, connect_to_db, try_except, internal_error.
  destruct (up db); cbn [rbind]; [|right; right; now eexists].
  destruct (is_empty (List.filter (genres_like sql_like _) (games db)));
    [right; right; now eexists|].
  destruct (is_empty (List.filter (genre_listed n) _)) eqn:E;
    [right; right; now eexists|].
  left. eexists _, _. split; [reflexivity|]. now apply nonempty_not_nil.
Qed.

(** X25: provided the token library raises nothing but [JWTError], the
    four modelled routes only ever answer 200 with at least one row, or
    401 or 500 with a message: none of them answers 404, nor 200 with an
    empty list. *)
Theorem read_api_answers (bearer : option string) (db : store)
    (game_title genre_name : string) :
  (∀ token e, jwt_decode token = Raise e → e = JWTError) →
  answer_ok (GET_games jwt_decode str_of bearer db) ∧
  answer_ok (GET_games_title jwt_decode sql_like str_of bearer db game_title) ∧
  answer_ok (GET_platforms jwt_decode str_of bearer db) ∧
  answer_ok (GET_games_genre jwt_decode sql_like str_of bearer db genre_name).
Proof.
  intros Hjwt. unfold GET_games, GET_games_title, GET_platforms, GET_games_genre.
  repeat split; apply route_guarded; try exact Hjwt.
  - apply get_all_games_guarded.
  - apply get_game_by_title_guarded.
  - apply get_all_platforms_guarded.
  - apply get_games_by_genre_guarded.
Qed.





End Store.

Section Tokens.
Variable jwt_encode : gmap string claim → string → string → string.
Variable jwt_decode : string → result (option string).
Variable utcnow later : Z.

(** X27: [POST /token] refuses every pair of credentials but
    [admin]/[admin], letters as they are, with status 401; for that pair it
    issues a token for the subject [admin] that expires 60 minutes after
    its issue. Provided the token library, at the time [later] of the
    check, decodes to its subject a token that it encoded and that expires
    after [later], this token passes the check of every route during those
    60 minutes. *)
Theorem login_token_is_accepted (handler : result body) :
  later < utcnow + minutes 60 →
  (∀ payload user t,
     payload !! "sub"%string = Some (Text user) →
     payload !! "exp"%string = Some (Date t) →
     later < t →
     jwt_decode (jwt_encode payload SECRET_KEY ALGORITHM) = Ok (Some user)) →
  (∀ username password,
     username ≠ "admin"%string ∨ password ≠ "admin"%string →
     login jwt_encode utcnow username password =
     Raise (HTTPException 401 "Nom d'utilisateur ou mot de passe invalide")) ∧
  ∃ token,
    login jwt_encode utcnow "admin" "admin" = Ok (mkToken token "bearer") ∧
    route jwt_decode (Some token) handler = respond handler.
Proof.
  intros Hlater Hlib. split.
  - intros username password Hne. unfold login.
    destruct (String.eqb username "admin") eqn:Eu; [|reflexivity].
    destruct (String.eqb password "admin") eqn:Ep; [|reflexivity].
    apply String.eqb_eq in Eu, Ep. destruct Hne; congruence.
  - eexists. split; [reflexivity|].
    apply route_valid with (user := "admin"%string).
    unfold create_access_token. apply (Hlib _ _ (utcnow + minutes 60)).
    + rewrite lookup_insert_ne by discriminate. apply lookup_singleton_eq.
    + apply lookup_insert_eq.
    + exact Hlater.
Qed.
End Tokens.

Lemma no_valid_token_is_401_witness :
  (Some "forged"%string = None ∨
   ∃ token, Some "forged"%string = Some token ∧
            (sample_decode token = Ok None ∨ sample_decode token = Raise JWTError)) ∧
  ∃ msg, route sample_decode (Some "forged"%string)
           (get_all_games sample_str some_games) = mkHttp 401 (Detail msg).
Proof.
  assert (H : Some "forged"%string = None ∨
              ∃ token, Some "forged"%string = Some token ∧
                       (sample_decode token = Ok None ∨
                        sample_decode token = Raise JWTError)).
  { right. exists "forged"%string. split; [reflexivity|]. now right. }
  split; [exact H|].
  apply (no_valid_token_is_401 sample_decode (Some "forged"%string)
           (get_all_games sample_str some_games)).
  exact H.
Defined.

Lemma sample_decode_raises token e : sample_decode token = Raise e → e = JWTError.
Proof.
  unfold sample_decode. destruct (String.eqb token "valid-token"); congruence.
Qed.

Lemma read_api_answers_witness :
  (∀ token e, sample_decode token = Raise e → e = JWTError) ∧
  answer_ok (GET_games sample_decode sample_str (Some "valid-token"%string) empty_store) ∧
  answer_ok (GET_games_title sample_decode like_ci sample_str
               (Some "valid-token"%string) empty_store "Hades") ∧
  answer_ok (GET_platforms sample_decode sample_str (Some "valid-token"%string)
               empty_store) ∧
  answer_ok (GET_games_genre sample_decode like_ci sample_str
               (Some "valid-token"%string) empty_store "action").
Proof.
  split; [exact sample_decode_raises|].
  apply (read_api_answers sample_decode like_ci sample_str
           (Some "valid-token"%string) empty_store "Hades" "action").
  exact sample_decode_raises.
Defined.


Lemma login_token_is_accepted_witness :
  5 < 0 + minutes 60 ∧
  (∀ payload user t,
     payload !! "sub"%string = Some (Text user) →
     payload !! "exp"%string = Some (Date t) →
     5 < t →
     sample_decode_sub (sample_encode payload SECRET_KEY ALGORITHM) = Ok (Some user)) ∧
  (∀ username password,
     username ≠ "admin"%string ∨ password ≠ "admin"%string →
     login sample_encode 0 username password =
     Raise (HTTPException 401 "Nom d'utilisateur ou mot de passe invalide")) ∧
  ∃ token,
    login sample_encode 0 "admin" "admin" = Ok (mkToken token "bearer") ∧
    route sample_decode_sub (Some token) (get_all_games sample_str some_games) =
    respond (get_all_games sample_str some_games).
Proof.
  assert (Hlib : ∀ payload user t,
            payload !! "sub"%string = Some (Text user) →
            payload !! "exp"%string = Some (Date t) →
            5 < t →
            sample_decode_sub (sample_encode payload SECRET_KEY ALGORITHM)
            = Ok (Some user)).
  { intros payload user t Hsub _ _. unfold sample_encode. now rewrite Hsub. }
  split; [reflexivity|]. split; [exact Hlib|].
  apply (login_token_is_accepted sample_encode sample_decode_sub 0 5
           (get_all_games sample_str some_games));
    [reflexivity | exact Hlib].
Defined.

End AnswerFacts.
